(** * Explorer query layer of lotus-backend-ts

    A shallow embedding of [src/lib/api/routes/explorer.ts]: burn accounting,
    output/input enrichment, pagination, block lookup, block-range listing,
    transaction lookup, address balance and the peer geolocation assembler
    with its process-wide cache; and of the environment parser of the
    configuration module.

    Conventions of the embedding.
    - A JavaScript [bigint] is a [Z]; [BigInt.prototype.toString] is the
      decimal printer [BigInt_toString].
    - The field [value] of a [TxOutput] holds the integer [BigInt(output.value)]
      that the indexer's decimal string denotes.
    - The script library (xpi-ts bitcore / rank) is outside the repository; its
      predicates and decoders are the fields of the class [ScriptLibrary] and
      are applied to the hex text of a script.  Its parser and its RANK
      processor may raise: the fields [fromBufferThrows] and
      [newScriptProcessorThrows] say on which scripts.
    - An uncaught exception of a handler is the result [None] (or a
      constructor of its own where the response type has several shapes).
    - The node RPC, the indexer and the geolocation service are arguments of
      the handlers: functions that give their answers.
    - A number read from the query string is a [JsNumber] where the integers
      are all that matters, a [JsDouble] where a fraction changes the
      answer. *)

From Stdlib Require Import ZArith List Bool Ascii String Lia Sorted Qcanon.
From stdpp Require Import gmap strings list pretty.

Open Scope Z_scope.

(** ** Data model (chronik-client and the explorer's extensions) *)

Record TxOutput := mkTxOutput {
  value : Z;
  outputScript : string
}.

(** [TxInput.outputScript] is optional in chronik-client. *)
Record TxInput := mkTxInput {
  prevOutputScript : option string;
  inputValue : Z
}.

Record Tx := mkTx {
  txid : string;
  inputs : list TxInput;
  outputs : list TxOutput;
  (** [tx.block?.height] *)
  txBlockHeight : option Z
}.

Record TxCounters := mkTxCounters {
  sumBurnedSats : Z
}.

Definition BigInt_toString (n : Z) : string := pretty n.

(** [String.prototype.startsWith] *)
Fixpoint startsWith (searchString s : string) : bool :=
  match searchString with
  | EmptyString => true
  | String c searchString =>
      match s with
      | EmptyString => false
      | String d s => Ascii.eqb c d && startsWith searchString s
      end
  end.

(** An address object of the script library with its two renderings. *)
Record Address := mkAddress {
  addressToString : string;
  toXAddress : string
}.

(** The script library, as the explorer calls it. *)
Class ScriptLibrary := {
  TransactionOutputRANK : Type;
  (** [Script.fromBuffer(buf)] and [Script.fromHex(hex)] raise on the script *)
  fromBufferThrows : string -> bool;
  (** [new ScriptProcessor(buf)] or its [processScriptRANK()] raises *)
  newScriptProcessorThrows : string -> bool;
  isDataOut : string -> bool;
  isPublicKeyHashOut : string -> bool;
  isScriptHashOut : string -> bool;
  isTaprootOut : string -> bool;
  (** [Address.isValid(address)] *)
  addressIsValid : string -> bool;
  (** [script.toAddress()], which may be null *)
  toAddress : string -> option Address;
  (** [new ScriptProcessor(buf).processScriptRANK()], which may be null *)
  processScriptRANK : string -> option TransactionOutputRANK
}.

Section Enrichment.

Context `{lib : ScriptLibrary}.

(** [ExplorerTxOutput]: the original output with at most the optional fields
    the spread literal adds. *)
Record ExplorerTxOutput := mkExplorerTxOutput {
  output : TxOutput;
  address : option string;
  rankOutput : option TransactionOutputRANK
}.

(** [ExplorerTxInput]: [address] is absent when the input is returned as is,
    [Some None] when the field is set to [null]. *)
Record ExplorerTxInput := mkExplorerTxInput {
  input : TxInput;
  inputAddress : option (option string)
}.

Definition isAddressOut (script : string) : bool :=
  isPublicKeyHashOut script || isScriptHashOut script || isTaprootOut script.

(** [script.toAddress()!.toString()]: the non-null assertion is erased at run
    time, so a null address raises a TypeError ([None]). *)
Definition addressString (script : string) : option string :=
  addressToString <$> toAddress script.

(** [toExplorerTxInput(input)]: an absent or empty script is falsy; nothing
    catches an exception of [Script.fromHex] ([None]). *)
Definition toExplorerTxInput (i : TxInput) : option ExplorerTxInput :=
  match prevOutputScript i with
  | None => Some (mkExplorerTxInput i None)
  | Some script =>
      if String.eqb script "" then Some (mkExplorerTxInput i None)
      else if fromBufferThrows script then None
      else if isAddressOut script
      then a ← addressString script; Some (mkExplorerTxInput i (Some (Some a)))
      else Some (mkExplorerTxInput i (Some None))
  end.

(** The part of [toExplorerTxOutput] after the OP_RETURN block. *)
Definition addressOrPlain (o : TxOutput) : option ExplorerTxOutput :=
  if isAddressOut (outputScript o)
  then a ← addressString (outputScript o);
       Some (mkExplorerTxOutput o (Some a) None)
  else Some (mkExplorerTxOutput o None None).

(** [toExplorerTxOutput(output, counters)]: the counter object is mutated in
    place, here it is threaded through.  Nothing catches an exception of
    [Script.fromBuffer] or of the RANK processor ([None]). *)
Definition toExplorerTxOutput (o : TxOutput) (counters : TxCounters)
  : option (ExplorerTxOutput * TxCounters) :=
  let script := outputScript o in
  if fromBufferThrows script then None
  else if isDataOut script then
    let counters := mkTxCounters (sumBurnedSats counters + value o) in
    if newScriptProcessorThrows script then None
    else
      match processScriptRANK script with
      | Some rank => Some (mkExplorerTxOutput o None (Some rank), counters)
      | None => e ← addressOrPlain o; Some (e, counters)
      end
  else e ← addressOrPlain o; Some (e, counters).

(** [tx.outputs.map(o => toExplorerTxOutput(o, counters))] *)
Fixpoint mapOutputs (os : list TxOutput) (counters : TxCounters)
  : option (list ExplorerTxOutput * TxCounters) :=
  match os with
  | [] => Some ([], counters)
  | o :: rest =>
      '(e, counters) ← toExplorerTxOutput o counters;
      '(es, counters) ← mapOutputs rest counters;
      Some (e :: es, counters)
  end.

Fixpoint mapInputs (ins : list TxInput) : option (list ExplorerTxInput) :=
  match ins with
  | [] => Some []
  | i :: rest =>
      e ← toExplorerTxInput i;
      es ← mapInputs rest;
      Some (e :: es)
  end.

Record ExplorerTx := mkExplorerTx {
  etx : Tx;
  explorerInputs : list ExplorerTxInput;
  explorerOutputs : list ExplorerTxOutput;
  confirmations : Z;
  txSumBurnedSats : string
}.

(** The parsed branch of [GET /tx/:txid] once the indexer has returned [tx];
    [blockCount] is [rpcClient.getBlockCount()]. *)
Definition explorerTx (blockCount : Z) (tx : Tx) : option ExplorerTx :=
  let counters := mkTxCounters 0 in
  ins ← mapInputs (inputs tx);
  '(outs, counters) ← mapOutputs (outputs tx) counters;
  Some (mkExplorerTx tx ins outs
          (match txBlockHeight tx with
           | Some h => blockCount - h + 1
           | None => 0
           end)
          (BigInt_toString (sumBurnedSats counters))).

End Enrichment.

(** [getSumBurnedSats(tx)]: the reducer of the address-history and block
    endpoints; [0x6a] is OP_RETURN. *)
Definition burnStep (acc : Z) (o : TxOutput) : Z :=
  let value := value o in
  if startsWith "6a" (outputScript o) && (0 <? value)
  then acc + value
  else acc.

Definition getSumBurnedSats (tx : Tx) : Z :=
  fold_left burnStep (outputs tx) 0.

(** The annotation both endpoints apply to each transaction:
    [{ ...tx, sumBurnedSats: getSumBurnedSats(tx).toString() }]. *)
Definition withSumBurnedSats (tx : Tx) : Tx * string :=
  (tx, BigInt_toString (getSumBurnedSats tx)).

(** ** Pagination *)

(** The value of [Number(raw)] for a raw query value: [NaN] for an absent or
    non-numeric one, otherwise the number, taken in the integer-valued range
    where double arithmetic is exact; [JsNumber] has the integers, and
    [JsDouble] below the fractions as well (infinities are outside the
    model). *)
Inductive JsNumber :=
| NaN
| Num (z : Z).

Definition DEFAULT_PAGE_SIZE : Z := 10.
Definition MAX_PAGE_SIZE : Z := 40.

(** [Number(raw) || d]: [NaN] and [0] are falsy. *)
Definition orDefault (n : JsNumber) (d : Z) : Z :=
  match n with
  | NaN => d
  | Num z => if z =? 0 then d else z
  end.

Record PageQuery := mkPageQuery {
  page : JsNumber;
  pageSize : JsNumber
}.

(** The three statements that open both the address-history and the blocks
    handler. *)
Definition pageNumOf (query : PageQuery) : Z := orDefault (page query) 1.

Definition pageSizeNumOf (query : PageQuery) : Z :=
  let pageSizeNum := orDefault (pageSize query) DEFAULT_PAGE_SIZE in
  if pageSizeNum >? MAX_PAGE_SIZE then MAX_PAGE_SIZE else pageSizeNum.

(** [enum HTTP] of [src/lib/api/index.ts]. *)
Inductive HTTP :=
| OK
| ACCEPTED
| MOVED_PERMANENTLY
| BAD_REQUEST
| UNAUTHORIZED
| PAYMENT_REQUIRED
| FORBIDDEN
| NOT_FOUND.

Definition statusCode (status : HTTP) : Z :=
  match status with
  | OK => 200
  | ACCEPTED => 202
  | MOVED_PERMANENTLY => 301
  | BAD_REQUEST => 400
  | UNAUTHORIZED => 401
  | PAYMENT_REQUIRED => 402
  | FORBIDDEN => 403
  | NOT_FOUND => 404
  end.

Record TxHistoryPage := mkTxHistoryPage {
  txs : list Tx;
  numPages : Z
}.

Inductive AddressResponse :=
| AddressError (status : HTTP) (error : string)
| AddressHistory (historyTxs : list (Tx * string)) (historyNumPages : Z).

(** The arguments of [scriptEndpoint.history(page, pageSize)]: the indexer
    counts pages from 0. *)
Definition historyArgs (query : PageQuery) : Z * Z :=
  let pageNum := pageNumOf query in
  let pageSizeNum := pageSizeNumOf query in
  (if pageNum >? 0 then pageNum - 1 else 0, pageSizeNum).

(** [GET /address/:address]: [history] is the history endpoint of the
    address's script, answering with the error message when it throws.  Of
    the response, the page of transactions is kept; [scriptType],
    [scriptPayload], [lastSeen] and the optional [balance] are left out. *)
Definition addressHandler `{lib : ScriptLibrary}
    (history : string -> Z -> Z -> TxHistoryPage + string)
    (address : string) (query : PageQuery) : AddressResponse :=
  if String.eqb address "" then AddressError BAD_REQUEST "address is required"
  else if negb (addressIsValid address)
  then AddressError BAD_REQUEST "invalid address"
  else
    let '(pageIndex, pageSizeNum) := historyArgs query in
    match history address pageIndex pageSizeNum with
    | inr message => AddressError NOT_FOUND message
    | inl h => AddressHistory (map withSumBurnedSats (txs h)) (numPages h)
    end.

(** ** Block-range listing *)

Record BlockInfo := mkBlockInfo {
  height : Z;
  hash : string
}.

(** The arguments of [chronikClient.blocks(start, end)]. *)
Definition blocksWindow (tipHeight pageSizeNum pageNum : Z) : Z * Z :=
  let startHeight := tipHeight - pageSizeNum * pageNum in
  let endHeight :=
    startHeight +
    (if pageSizeNum >? MAX_PAGE_SIZE then MAX_PAGE_SIZE else pageSizeNum) in
  (if startHeight + 1 >? 0 then startHeight + 1 else 1, endHeight).

Record BlocksResponse := mkBlocksResponse {
  blocks : list BlockInfo;
  tipHeight : Z
}.

(** [GET /blocks]: [chronik_blocks] is the indexer's range query and [tip] the
    tip height of [chronikClient.blockchainInfo()]. *)
Definition blocksHandler (chronik_blocks : Z -> Z -> list BlockInfo)
    (tip : Z) (query : PageQuery) : BlocksResponse :=
  let pageNum := pageNumOf query in
  let pageSizeNum := pageSizeNumOf query in
  let '(lo, hi) := blocksWindow tip pageSizeNum pageNum in
  mkBlocksResponse (rev (chronik_blocks lo hi)) tip.

(** The indexer's contract for one answer: the blocks come by strictly
    ascending height, all within the requested inclusive range. *)
Fixpoint ascendingWithin (lo hi : Z) (bs : list BlockInfo) : bool :=
  match bs with
  | [] => true
  | b :: rest =>
      (lo <=? height b) && (height b <=? hi)
      && ascendingWithin (height b + 1) hi rest
  end.

(** A reference indexer over a chain stored by ascending height: the blocks
    whose height lies in the inclusive range. *)
Definition chainBlocks (chain : list BlockInfo) (lo hi : Z) : list BlockInfo :=
  filter (fun b => lo <= height b <= hi) chain.

(** The chain of heights [0 .. n-1]. *)
Definition chainOf (n : nat) : list BlockInfo :=
  map (fun h => mkBlockInfo (Z.of_nat h) "") (seq 0 n).

(** ** Pagination on every finite number

    [Number(raw)] need not be an integer: [?page=0.5] gives 0.5, and the
    handlers compute with it as with any number.  Here a finite number is the
    rational it denotes, and the statements of both handlers are repeated on
    it; on the integers they agree with the definitions above. *)

Inductive JsDouble :=
| DNaN
| DNum (q : Qc).

(** The integers among them. *)
Definition toDouble (n : JsNumber) : JsDouble :=
  match n with
  | NaN => DNaN
  | Num z => DNum (Qc_of_Z z)
  end.

(** [Number(raw) || d] *)
Definition orDefaultD (n : JsDouble) (d : Qc) : Qc :=
  match n with
  | DNaN => d
  | DNum q => if decide (q = 0%Qc) then d else q
  end.

(** The statements that open both handlers. *)
Definition pageNumD (page : JsDouble) : Qc := orDefaultD page 1%Qc.

Definition pageSizeNumD (pageSize : JsDouble) : Qc :=
  let pageSizeNum := orDefaultD pageSize (Qc_of_Z DEFAULT_PAGE_SIZE) in
  if decide (Qc_of_Z MAX_PAGE_SIZE < pageSizeNum)%Qc
  then Qc_of_Z MAX_PAGE_SIZE
  else pageSizeNum.

(** The page index [pageNum > 0 ? pageNum - 1 : 0] of the address history. *)
Definition historyPageD (page : JsDouble) : Qc :=
  let pageNum := pageNumD page in
  if decide (0 < pageNum)%Qc then (pageNum - 1)%Qc else 0%Qc.

(** The arguments of [chronikClient.blocks(start, end)]. *)
Definition blocksWindowD (tipHeight : Z) (pageSizeNum pageNum : Qc) : Qc * Qc :=
  let startHeight := (Qc_of_Z tipHeight - pageSizeNum * pageNum)%Qc in
  let endHeight :=
    (startHeight +
     (if decide (Qc_of_Z MAX_PAGE_SIZE < pageSizeNum)%Qc
      then Qc_of_Z MAX_PAGE_SIZE else pageSizeNum))%Qc in
  (if decide (0 < startHeight + 1)%Qc then (startHeight + 1)%Qc else 1%Qc,
   endHeight).

(** The reference indexer: the blocks whose height lies in the range. *)
Definition chainBlocksD (chain : list BlockInfo) (lo hi : Qc) : list BlockInfo :=
  filter (fun b => (lo <= Qc_of_Z (height b))%Qc
                   /\ (Qc_of_Z (height b) <= hi)%Qc) chain.

(** [GET /blocks] *)
Definition blocksHandlerD (chronik_blocks : Qc -> Qc -> list BlockInfo)
    (tip : Z) (page pageSize : JsDouble) : BlocksResponse :=
  let pageNum := pageNumD page in
  let pageSizeNum := pageSizeNumD pageSize in
  let '(lo, hi) := blocksWindowD tip pageSizeNum pageNum in
  mkBlocksResponse (rev (chronik_blocks lo hi)) tip.

(** ** Block lookup *)

Record Block := mkBlock {
  blockInfo : BlockInfo;
  blockTxs : list Tx
}.

Inductive BlockResponse :=
| BlockError (status : HTTP) (error : string)
| BlockAsIs (block : Block)
| BlockExplorer (info : BlockInfo) (txs : list (Tx * string)) (minedBy : string)
| BlockThrown.

Section BlockLookup.

Context `{lib : ScriptLibrary}.

(** The [minedBy] expression:
    [Script.fromHex(block.txs[0]!.outputs[1]!.outputScript).toAddress()!.toXAddress()];
    every [!] is erased, so a missing transaction, a missing output or a null
    address raises a TypeError ([None]). *)
Definition minedByOf (txs : list (Tx * string)) : option string :=
  '(tx0, _) ← txs !! 0%nat;
  o ← outputs tx0 !! 1%nat;
  a ← toAddress (outputScript o);
  Some (toXAddress a).

(** [GET /block/:hashOrHeight]: [chronik_block] is [chronikClient.block],
    answering with the error message when it throws or returns nothing. *)
Definition blockHandler (chronik_block : string -> Block + string)
    (hashOrHeight : string) : BlockResponse :=
  if String.eqb hashOrHeight "" then
    BlockError BAD_REQUEST "hashOrHeight is required"
  else
    match chronik_block hashOrHeight with
    | inr message => BlockError NOT_FOUND message
    | inl block =>
        if height (blockInfo block) =? 0 then BlockAsIs block
        else
          let txs := map withSumBurnedSats (blockTxs block) in
          match minedByOf txs with
          | Some minedBy => BlockExplorer (blockInfo block) txs minedBy
          | None => BlockThrown
          end
    end.

End BlockLookup.

(** ** Peer geolocation assembler *)

Record GeoIPData := mkGeoIPData {
  country : string;
  city : string
}.

Record GeoIPResponse := mkGeoIPResponse {
  success : bool;
  status : string;
  ip : string;
  data : GeoIPData
}.

(** [PeerInfo] of the node RPC: the address, the other fields of the record
    (kept as [peerId]) and the [geoip] field the handler adds. *)
Record PeerInfo := mkPeerInfo {
  peerId : Z;
  addr : string;
  geoip : option GeoIPData
}.

Definition isDigit (c : ascii) : bool :=
  (Ascii.leb "0" c && Ascii.leb c "9")%char.

Definition inRange (lo hi c : ascii) : bool :=
  Ascii.leb lo c && Ascii.leb c hi.

(** [[0-9a-fA-F]] *)
Definition isHexDigit (c : ascii) : bool :=
  (isDigit c || inRange "a" "f" c || inRange "A" "F" c)%char.

Definition oneOf (cs : string) (c : ascii) : bool :=
  existsb (Ascii.eqb c) (list_ascii_of_string cs).

(** [/^(127\.|10\.|192\.168\.|172\.(1[6-9]|2[0-9]|3[0-1])\.|169\.254\.)/] *)
Definition matchPrivateV4 (s : string) : bool :=
  startsWith "127." s
  || startsWith "10." s
  || startsWith "192.168." s
  || match s with
     | String "1" (String "7" (String "2" (String "."
         (String a (String b (String "." _)))))) =>
         (Ascii.eqb a "1" && inRange "6" "9" b
          || Ascii.eqb a "2" && inRange "0" "9" b
          || Ascii.eqb a "3" && inRange "0" "1" b)%char
     | _ => false
     end
  || startsWith "169.254." s.

(** [/^(::1$|[fF][cCdD][0-9a-fA-F]{2}:|[fF][eE][89aAbB][0-9a-fA-F]:)/] *)
Definition matchPrivateV6 (s : string) : bool :=
  String.eqb s "::1"
  || match s with
     | String c1 (String c2 (String c3 (String c4 (String ":" _)))) =>
         oneOf "fF" c1 && oneOf "cCdD" c2 && isHexDigit c3 && isHexDigit c4
         || oneOf "fF" c1 && oneOf "eE" c2 && oneOf "89aAbB" c3 && isHexDigit c4
     | _ => false
     end.

(** [\d{1,5}$] against the whole of [s] *)
Definition isPortDigits (s : string) : bool :=
  let cs := list_ascii_of_string s in
  forallb isDigit cs && (1 <=? length cs)%nat && (length cs <=? 5)%nat.

(** [const [ip] = addr.split(/\:\d{1,5}$/)]: the text before the port suffix,
    the whole address when there is none. *)
Fixpoint stripPort (s : string) : string :=
  match s with
  | EmptyString => EmptyString
  | String c rest =>
      if Ascii.eqb c ":" && isPortDigits rest then EmptyString
      else String c (stripPort rest)
  end.

(** What the loop body does with one peer before it would await the
    external service. *)
Inductive PeerAction :=
| Skip
| Hit (peer : PeerInfo)
| Lookup (ip : string).

Definition peerAction (cache : gmap string GeoIPResponse) (peer : PeerInfo)
  : PeerAction :=
  if matchPrivateV4 (addr peer) || matchPrivateV6 (addr peer) then Skip
  else
    let ip := stripPort (addr peer) in
    if String.eqb ip "" then Skip
    else
      match cache !! ip with
      | Some cached => Hit (mkPeerInfo (peerId peer) ip (Some (data cached)))
      | None => Lookup ip
      end.

(** The outcome of [fetch] followed by [response.json()]. *)
Inductive FetchResult :=
| FetchThrows
| FetchJson (json : GeoIPResponse).

(** The loop body after the awaited response has arrived. *)
Definition onResponse (cache : gmap string GeoIPResponse) (peer : PeerInfo)
    (ip : string) (json : GeoIPResponse)
  : gmap string GeoIPResponse * list PeerInfo :=
  if success json
  then (<[ip := json]> cache, [mkPeerInfo (peerId peer) ip (Some (data json))])
  else (cache, []).

(** The process-wide state of the assembler: the cache and, as a ghost
    field, the external lookups issued so far (oldest first). *)
Record GeoState := mkGeoState {
  GEOIP_CACHE : gmap string GeoIPResponse;
  lookups : list string
}.

Section Overview.

(** The external service: its answer to a lookup may depend on the lookups
    issued before. *)
Variable geo : list string -> string -> FetchResult.

(** The [for (const peer of peerInfo)] loop of [GET /overview], run without
    interleaving; [None] in the result is an uncaught exception. *)
Fixpoint overviewLoop (peerInfo : list PeerInfo) (st : GeoState)
    (peers : list PeerInfo) : GeoState * option (list PeerInfo) :=
  match peerInfo with
  | [] => (st, Some peers)
  | peer :: rest =>
      match peerAction (GEOIP_CACHE st) peer with
      | Skip => overviewLoop rest st peers
      | Hit p => overviewLoop rest st (peers ++ [p])
      | Lookup ip =>
          let issued := lookups st ++ [ip] in
          match geo (lookups st) ip with
          | FetchThrows => (mkGeoState (GEOIP_CACHE st) issued, None)
          | FetchJson json =>
              let '(cache, pushed) := onResponse (GEOIP_CACHE st) peer ip json in
              overviewLoop rest (mkGeoState cache issued) (peers ++ pushed)
          end
      end
  end.

Definition overview (peerInfo : list PeerInfo) (st : GeoState)
  : GeoState * option (list PeerInfo) :=
  overviewLoop peerInfo st [].

End Overview.

(** *** Interleaved requests

    Requests run as asynchronous tasks over the shared cache.  A task yields
    only at an [await]: between the cache test and the call of [fetch] there
    is none, so both belong to one step, and so do the cache update and the
    push that follow the awaited response.  The relation lets the scheduler
    switch after every peer, which JavaScript does only at an [await]: it
    has every run of the program, and more. *)

Inductive Request :=
| Running (pending : list PeerInfo) (peers : list PeerInfo)
| Awaiting (peer : PeerInfo) (ip : string)
           (pending : list PeerInfo) (peers : list PeerInfo)
| Responded (peers : list PeerInfo)
| Failed.

Record Process := mkProcess {
  cacheOf : gmap string GeoIPResponse;
  requests : list Request
}.

Inductive Event :=
| Silent
| Fetch (ip : string).

Inductive step : Process -> Event -> Process -> Prop :=
| step_arrive cache rs peerInfo :
    step (mkProcess cache rs) Silent
         (mkProcess cache (rs ++ [Running peerInfo []]))
| step_respond cache rs k peers :
    rs !! k = Some (Running [] peers) ->
    step (mkProcess cache rs) Silent
         (mkProcess cache (<[k := Responded peers]> rs))
| step_skip cache rs k peer rest peers :
    rs !! k = Some (Running (peer :: rest) peers) ->
    peerAction cache peer = Skip ->
    step (mkProcess cache rs) Silent
         (mkProcess cache (<[k := Running rest peers]> rs))
| step_hit cache rs k peer rest peers p :
    rs !! k = Some (Running (peer :: rest) peers) ->
    peerAction cache peer = Hit p ->
    step (mkProcess cache rs) Silent
         (mkProcess cache (<[k := Running rest (peers ++ [p])]> rs))
| step_lookup cache rs k peer rest peers ip :
    rs !! k = Some (Running (peer :: rest) peers) ->
    peerAction cache peer = Lookup ip ->
    step (mkProcess cache rs) (Fetch ip)
         (mkProcess cache (<[k := Awaiting peer ip rest peers]> rs))
| step_throw cache rs k peer ip rest peers :
    rs !! k = Some (Awaiting peer ip rest peers) ->
    step (mkProcess cache rs) Silent
         (mkProcess cache (<[k := Failed]> rs))
| step_json cache rs k peer ip rest peers json :
    rs !! k = Some (Awaiting peer ip rest peers) ->
    step (mkProcess cache rs) Silent
         (mkProcess (onResponse cache peer ip json).1
                    (<[k := Running rest (peers ++ (onResponse cache peer ip json).2)]> rs)).

Inductive run : Process -> list Event -> Process -> Prop :=
| run_done P : run P [] P
| run_step P e Q tr R : step P e Q -> run Q tr R -> run P (e :: tr) R.

(** ** Transaction lookup *)

Section TxLookup.

Context `{lib : ScriptLibrary} {RawTransaction : Type}.

Inductive TxResponse :=
| TxRaw (raw : RawTransaction)
| TxNotFound (status : HTTP) (error : string) (txid : string)
| TxExplorer (tx : ExplorerTx)
| TxThrown.

(** [GET /tx/:txid]: [getRawTransaction] and [getBlockCount] are the node's
    answers, [chronik_tx] is [chronikClient.tx], [None] when it throws;
    [TxThrown] is an exception raised while the inputs and outputs are
    converted, which nothing catches. *)
Definition txHandler (getRawTransaction : string -> RawTransaction)
    (getBlockCount : Z) (chronik_tx : string -> option Tx)
    (txid : string) (raw : option string) : TxResponse :=
  let parsed :=
    let blockchainInfo := getBlockCount in
    match chronik_tx txid with
    | None => TxNotFound NOT_FOUND "transaction not found" txid
    | Some tx =>
        match explorerTx blockchainInfo tx with
        | Some e => TxExplorer e
        | None => TxThrown
        end
    end in
  match raw with
  | Some r => if String.eqb r "1" then TxRaw (getRawTransaction txid) else parsed
  | None => parsed
  end.

End TxLookup.

(** ** Address balance *)

(** [response[0]?.utxos] summed with [BigInt(utxo.value)]: the answer of
    [utxos()] is a list of scripts, each with the values of its UTXOs; the
    field is set only for [includeBalance=1] and a first element. *)
Definition balanceOf (includeBalance : option string) (response : list (list Z))
  : option string :=
  match includeBalance with
  | Some flag =>
      if String.eqb flag "1" then
        match response with
        | utxos :: _ => Some (BigInt_toString (fold_left Z.add utxos 0))
        | [] => None
        end
      else None
  | None => None
  end.

(** ** Configuration (the environment parser) *)

(** [parseInt(string)] with no radix, on ASCII text: leading white space is
    dropped, then come a sign, a prefix [0x] or [0X], and the longest prefix
    of digits of the radix.  The result is the exact integer (a double
    rounds above 2^53). *)
Definition isStrWhiteSpace (c : ascii) : bool :=
  let n := nat_of_ascii c in
  ((9 <=? n) && (n <=? 13) || (n =? 32))%nat.

Fixpoint trimStart (s : string) : string :=
  match s with
  | EmptyString => EmptyString
  | String c rest => if isStrWhiteSpace c then trimStart rest else s
  end.

Definition digitValue (radix : Z) (c : ascii) : option Z :=
  let code := Z.of_nat (nat_of_ascii c) in
  let v :=
    if isDigit c then Some (code - 48)
    else if inRange "a" "z" c then Some (code - 87)
    else if inRange "A" "Z" c then Some (code - 55)
    else None in
  match v with
  | Some d => if d <? radix then Some d else None
  | None => None
  end.

(** The value of the longest prefix of digits. *)
Fixpoint parseDigits (radix acc : Z) (s : string) : Z :=
  match s with
  | EmptyString => acc
  | String c rest =>
      match digitValue radix c with
      | Some d => parseDigits radix (acc * radix + d) rest
      | None => acc
      end
  end.

(** The sign and what follows it. *)
Definition splitSign (s : string) : Z * string :=
  match s with
  | String "-" rest => (-1, rest)
  | String "+" rest => (1, rest)
  | _ => (1, s)
  end.

(** The radix, 16 after a prefix [0x] or [0X], and the digits. *)
Definition splitRadix (s : string) : Z * string :=
  match s with
  | String "0" (String x rest) =>
      if Ascii.eqb x "x" || Ascii.eqb x "X" then (16, rest) else (10, s)
  | _ => (10, s)
  end.

(** The number the digits denote, [NaN] when there is no digit. *)
Definition magnitude (s : string) : JsNumber :=
  let '(radix, digits) := splitRadix s in
  match digits with
  | EmptyString => NaN
  | String c _ =>
      match digitValue radix c with
      | Some _ => Num (parseDigits radix 0 digits)
      | None => NaN
      end
  end.

Definition parseInt (s : string) : JsNumber :=
  let '(sign, unsigned) := splitSign (trimStart s) in
  match magnitude unsigned with
  | NaN => NaN
  | Num m => Num (sign * m)
  end.

Record APIConfig := mkAPIConfig {
  listenAddress : string;
  listenPort : JsNumber;
  rateLimitWindowMinutes : JsNumber;
  rateLimitMaxRequests : JsNumber
}.

Record JSONRPCConfig := mkJSONRPCConfig {
  rpcAddress : string;
  rpcPort : JsNumber;
  rpcUser : string;
  rpcPassword : string
}.

Record ChronikConfig := mkChronikConfig {
  chronikUrl : string
}.

Record Config := mkConfig {
  api : APIConfig;
  rpc : JSONRPCConfig;
  chronik : ChronikConfig
}.

(** [DotenvConfigOutput]: [parsed] is absent when the file could not be read. *)
Record DotenvConfigOutput := mkDotenvConfigOutput {
  parsed : option (gmap string string)
}.

(** [this.env?.parsed?.KEY] *)
Definition envVar (env : option DotenvConfigOutput) (key : string)
  : option string :=
  e ← env; p ← parsed e; p !! key.

(** [value || fallback] on strings: undefined and the empty string are falsy. *)
Definition orString (value : option string) (fallback : string) : string :=
  match value with
  | Some s => if String.eqb s "" then fallback else s
  | None => fallback
  end.

Definition parseEnvironment (env : option DotenvConfigOutput) : Config :=
  let var := envVar env in
  mkConfig
    (mkAPIConfig
       (orString (var "API_LISTEN_ADDRESS") "0.0.0.0")
       (parseInt (orString (var "API_LISTEN_PORT") "3000"))
       (parseInt (orString (var "API_RATE_LIMIT_WINDOW_MINUTES") "1"))
       (parseInt (orString (var "API_RATE_LIMIT_MAX_REQUESTS") "100")))
    (mkJSONRPCConfig
       (orString (var "JSONRPC_ADDRESS") "127.0.0.1")
       (parseInt (orString (var "JSONRPC_PORT") "10604"))
       (orString (var "JSONRPC_USERNAME") "lotus")
       (orString (var "JSONRPC_PASSWORD") "lotus"))
    (mkChronikConfig
       (orString (var "CHRONIK_URL") "https://chronik.lotusia.org")).

(** ** The specification's wording (§4.2, §4.3, §4.5), for comparison *)

Definition sumZ (l : list Z) : Z := foldr Z.add 0 l.
Arguments sumZ : simpl never.

(** §4.2: a data-carrying script begins with the null-data opcode. *)
Definition isDataCarrying (o : TxOutput) : bool :=
  startsWith "6a" (outputScript o).

(** §4.3: every output whose script is data-carrying and whose value is
    strictly positive. *)
Definition burnedOutputs (tx : Tx) : list TxOutput :=
  List.filter (fun o => isDataCarrying o && (0 <? value o)) (outputs tx).

Definition burnedSpec (tx : Tx) : Z := sumZ (map value (burnedOutputs tx)).

(** The transaction without its outputs of value 0. *)
Definition dropZeroOutputs (tx : Tx) : Tx :=
  mkTx (txid tx) (inputs tx)
       (List.filter (fun o => negb (value o =? 0)) (outputs tx))
       (txBlockHeight tx).

(** §3: the enriched output as a tagged variant. *)
Inductive Enrichment {R : Type} :=
| Plain
| WithAddress (a : string)
| WithPayload (r : R).
Arguments Enrichment : clear implicits.

Definition enrichmentOf `{lib : ScriptLibrary} (e : ExplorerTxOutput)
  : option (Enrichment TransactionOutputRANK) :=
  match address e, rankOutput e with
  | None, None => Some Plain
  | Some a, None => Some (WithAddress a)
  | None, Some r => Some (WithPayload r)
  | Some _, Some _ => None
  end.

(** §4.2: the classification in its precedence order; the address attached
    is the text of the address the library decodes from the script. *)
Definition classify `{lib : ScriptLibrary} (script : string)
  : Enrichment TransactionOutputRANK :=
  if isDataOut script then
    match processScriptRANK script with
    | Some r => WithPayload r
    | None => Plain
    end
  else if isPublicKeyHashOut script || isScriptHashOut script
          || isTaprootOut script then
    match toAddress script with
    | Some a => WithAddress (addressToString a)
    | None => Plain
    end
  else Plain.

(** §4.5: the private, loopback and link-local IPv4 ranges, on the first two
    octets of a dotted quad. *)
Definition isPrivateV4 (a b : N) : bool :=
  ((a =? 10) || (a =? 127) || (a =? 172) && (16 <=? b) && (b <=? 31)
   || (a =? 192) && (b =? 168) || (a =? 169) && (b =? 254))%N.

Definition dottedQuad (a b c d : N) : string :=
  pretty a +:+ "." +:+ pretty b +:+ "." +:+ pretty c +:+ "." +:+ pretty d.

(** §4.5 for IPv6: the value of a group of four hexadecimal digits, and the
    unique-local and link-local ranges on the first group. *)
Definition hexValue (c : ascii) : N :=
  match digitValue 16 c with
  | Some d => Z.to_N d
  | None => 0
  end.

Definition hextet (c1 c2 c3 c4 : ascii) : N :=
  (((hexValue c1 * 16 + hexValue c2) * 16 + hexValue c3) * 16 + hexValue c4)%N.

(** fc00::/7 and fe80::/10 *)
Definition isPrivateV6 (group : N) : bool :=
  ((0xfc00 <=? group) && (group <=? 0xfdff)
   || (0xfe80 <=? group) && (group <=? 0xfebf))%N.

(** ** A script library for the examples

    Scripts are recognised by their standard templates: OP_RETURN ([6a]) for
    data, [76a914 <20 bytes> 88ac] for pay-to-public-key-hash,
    [a914 <20 bytes> 87] for pay-to-script-hash and the Lotus prefix [6251]
    for pay-to-taproot; a RANK payload is announced by the push of the LOKAD
    prefix [52414e4b].  Addresses are rendered from the payload.  The parser
    and the RANK processor of this library never raise. *)

Definition between (pre post s : string) : option string :=
  let n := String.length s in
  let a := String.length pre in
  let b := String.length post in
  if startsWith pre s && (a + b <=? n)%nat
     && String.eqb (String.substring (n - b) b s) post
  then Some (String.substring a (n - a - b) s)
  else None.

Definition templatePayload (script : string) : option string :=
  match between "76a914" "88ac" script with
  | Some h => Some h
  | None =>
      match between "a914" "87" script with
      | Some h => Some h
      | None => between "6251" "" script
      end
  end.

Definition templateLibrary : ScriptLibrary := {|
  TransactionOutputRANK := string;
  fromBufferThrows _ := false;
  newScriptProcessorThrows _ := false;
  isDataOut s := startsWith "6a" s;
  isPublicKeyHashOut s := bool_decide (is_Some (between "76a914" "88ac" s));
  isScriptHashOut s := bool_decide (is_Some (between "a914" "87" s));
  isTaprootOut s := bool_decide (is_Some (between "6251" "" s));
  addressIsValid s := startsWith "lotus_" s;
  toAddress s := (fun h => mkAddress ("lotus_" +:+ h) ("X" +:+ h)) <$> templatePayload s;
  processScriptRANK s := between "6a0452414e4b" "" s
|}.

(** The same library with a parser that raises on a pay-to-public-key-hash
    script cut short within its push of 20 bytes, and a RANK processor that
    raises on a script with nothing after OP_RETURN. *)
Definition strictLibrary : ScriptLibrary := {|
  TransactionOutputRANK := string;
  fromBufferThrows s := startsWith "76a914" s && (String.length s <? 46)%nat;
  newScriptProcessorThrows s := String.eqb s "6a";
  isDataOut := @isDataOut templateLibrary;
  isPublicKeyHashOut := @isPublicKeyHashOut templateLibrary;
  isScriptHashOut := @isScriptHashOut templateLibrary;
  isTaprootOut := @isTaprootOut templateLibrary;
  addressIsValid := @addressIsValid templateLibrary;
  toAddress := @toAddress templateLibrary;
  processScriptRANK := @processScriptRANK templateLibrary
|}.

(** ** Auxiliary definitions of the statements *)

(** What one call of [toExplorerTxOutput] adds to the counter. *)
Definition counted `{lib : ScriptLibrary} (o : TxOutput) : Z :=
  if isDataOut (outputScript o) then value o else 0.

(** The filter of the overview loop: both regular expressions. *)
Definition isPrivateAddr (a : string) : bool :=
  matchPrivateV4 a || matchPrivateV6 a.

(** The raw page sizes the normalisation replaces, with their replacement. *)
Inductive DefaultOrClamped : JsNumber -> Z -> Prop :=
| size_absent : DefaultOrClamped NaN DEFAULT_PAGE_SIZE
| size_zero : DefaultOrClamped (Num 0) DEFAULT_PAGE_SIZE
| size_above z : z > MAX_PAGE_SIZE -> DefaultOrClamped (Num z) MAX_PAGE_SIZE.

(** The external lookups a trace issues. *)
Definition fetchesOf (tr : list Event) : list string :=
  omap (fun e => match e with Fetch ip => Some ip | Silent => None end) tr.

(** A request that ran to the end of its loop, or died of an exception. *)
Definition outcomeRequest (r : option (list PeerInfo)) : Request :=
  match r with
  | Some peers => Running [] peers
  | None => Failed
  end.

(** An external service that never answers a lookup of [k] with success. *)
Definition neverLocates (geo : list string -> string -> FetchResult)
    (k : string) : Prop :=
  forall issued,
    match geo issued k with
    | FetchJson json => success json = false
    | FetchThrows => True
    end.

(** The text of a decimal number. *)
Definition allDigits (s : string) : bool :=
  forallb isDigit (list_ascii_of_string s).

(** §4.5 on the text of the second octet: the decimal spellings of 16..31. *)
Definition isOctet16to31 (pb : string) : bool :=
  existsb (String.eqb pb)
    ["16"; "17"; "18"; "19"; "20"; "21"; "22"; "23"; "24"; "25"; "26"; "27";
     "28"; "29"; "30"; "31"]%string.

(** A script of an address type the library decodes to no address: the
    erased non-null assertion on [toAddress()] raises on it. *)
Definition undecodable `{lib : ScriptLibrary} (script : string) : bool :=
  isAddressOut script
  && match toAddress script with Some _ => false | None => true end.

(** The inputs and outputs on which an exception is raised: by the parser,
    by the RANK processor on a data output, or by that assertion on a script
    that is not answered as a RANK output. *)
Definition inputThrows `{lib : ScriptLibrary} (i : TxInput) : bool :=
  match prevOutputScript i with
  | Some script =>
      negb (String.eqb script "")
      && (fromBufferThrows script || undecodable script)
  | None => false
  end.

Definition outputThrows `{lib : ScriptLibrary} (o : TxOutput) : bool :=
  let script := outputScript o in
  fromBufferThrows script
  || (if isDataOut script then
        newScriptProcessorThrows script
        || match processScriptRANK script with
           | Some _ => false
           | None => undecodable script
           end
      else undecodable script).

(** A listed peer comes from a peer of the node: same record, port stripped,
    [geoip] the data of the cache entry of its address. *)
Definition listedFrom (cache : gmap string GeoIPResponse)
    (peer listed : PeerInfo) : Prop :=
  isPrivateAddr (addr peer) = false
  /\ peerId listed = peerId peer
  /\ addr listed = stripPort (addr peer)
  /\ exists cached, cache !! addr listed = Some cached
                    /\ geoip listed = Some (data cached).

(** Every entry of the cache is a successful response. *)
Definition allSuccessful (cache : gmap string GeoIPResponse) : Prop :=
  map_Forall (fun _ json => success json = true) cache.

(** ** Example values *)

(** A transaction with one output.  The scripts of the examples are [6a], a
    bare OP_RETURN, and [6a6a], OP_RETURN followed by OP_RETURN. *)
Definition oneOutputTx (script : string) (v : Z) : Tx :=
  mkTx "" [] [mkTxOutput v script] None.

(** §8: a data output of value 100, a pay-to-public-key-hash output of value
    500 and an empty OP_RETURN of value 0. *)
Definition exampleTx : Tx :=
  mkTx "e2e" []
       [mkTxOutput 100 "6a0400000000";
        mkTxOutput 500 "76a914000102030405060708090a0b0c0d0e0f1011121388ac";
        mkTxOutput 0 "6a"]
       (Some 7).

Definition exampleHistory (_ : string) (_ _ : Z) : TxHistoryPage + string :=
  inl (mkTxHistoryPage [exampleTx] 1).

Definition exampleAddress : string :=
  "lotus_000102030405060708090a0b0c0d0e0f10111213".

Definition exampleBlock : Block := mkBlock (mkBlockInfo 7 "00ab") [exampleTx].

Definition genesisBlock : Block := mkBlock (mkBlockInfo 0 "0000") [exampleTx].

(** A pay-to-public-key-hash output, and a bare OP_RETURN output. *)
Definition addressExampleOutput : TxOutput :=
  mkTxOutput 500 "76a914000102030405060708090a0b0c0d0e0f1011121388ac".

Definition bareDataOutput : TxOutput := mkTxOutput 1 "6a".

Definition clampedQuery : PageQuery := mkPageQuery (Num 1) (Num 100).

Definition googleDns : GeoIPResponse :=
  mkGeoIPResponse true "success" "8.8.8.8"
                  (mkGeoIPData "United States" "Mountain View").

Definition publicPeer : PeerInfo := mkPeerInfo 1 "8.8.8.8:10605" None.

Definition otherPeer : PeerInfo := mkPeerInfo 2 "1.1.1.1:10605" None.

Definition lanPeer : PeerInfo := mkPeerInfo 9 "192.168.1.5:1234" None.

Definition coldState : GeoState := mkGeoState ∅ [].

Definition warmState : GeoState :=
  mkGeoState {[ "8.8.8.8"%string := googleDns ]} [].

Definition warmProcess : Process :=
  mkProcess {[ "8.8.8.8"%string := googleDns ]} [Running [publicPeer] []].

(** An external service that locates every address. *)
Definition geoAlways (_ : list string) (ip : string) : FetchResult :=
  FetchJson (mkGeoIPResponse true "success" ip (mkGeoIPData "Nowhere" "None")).

(** An external service that cannot be reached. *)
Definition geoDown (_ : list string) (_ : string) : FetchResult := FetchThrows.

(** An external service that answers, never with success. *)
Definition geoUnknown (_ : list string) (ip : string) : FetchResult :=
  FetchJson (mkGeoIPResponse false "fail" ip (mkGeoIPData "" "")).

(** The configuration of an installation without settings. *)
Definition defaultConfig : Config :=
  mkConfig (mkAPIConfig "0.0.0.0" (Num 3000) (Num 1) (Num 100))
           (mkJSONRPCConfig "127.0.0.1" (Num 10604) "lotus" "lotus")
           (mkChronikConfig "https://chronik.lotusia.org").

(** The parsed environment file with the given settings. *)
Definition dotenvOf (vars : list (string * string)) : option DotenvConfigOutput :=
  Some (mkDotenvConfigOutput (Some (list_to_map vars))).

(** * Theorems *)

(** [startsWith] is the prefix test of the standard library. *)
Lemma startsWith_prefix (p s : string) : startsWith p s = String.prefix p s.
Proof.
  revert s. induction p as [|c p IH]; intros s; destruct s as [|d s]; simpl;
    try reflexivity.
  rewrite IH. destruct (Ascii.eqb_spec c d) as [->|Hne]; simpl.
  - destruct (ascii_dec d d); [reflexivity | contradiction].
  - destruct (ascii_dec c d); [contradiction | reflexivity].
Qed.

(** ** Burn accounting *)

Lemma sumZ_cons (z : Z) (l : list Z) : sumZ (z :: l) = z + sumZ l.
Proof. reflexivity. Qed.

Lemma fold_burnStep (os : list TxOutput) (acc : Z) :
  fold_left burnStep os acc =
  acc + sumZ (map value
                (List.filter (fun o => isDataCarrying o && (0 <? value o)) os)).
Proof.
  revert acc. induction os as [|o os IH]; intros acc; simpl.
  - unfold sumZ. simpl. lia.
  - rewrite IH. unfold burnStep, isDataCarrying.
    destruct (startsWith "6a" (outputScript o) && (0 <? value o)); simpl.
    + rewrite sumZ_cons. lia.
    + reflexivity.
Qed.

Lemma getSumBurnedSats_spec (tx : Tx) : getSumBurnedSats tx = burnedSpec tx.
Proof.
  unfold getSumBurnedSats, burnedSpec, burnedOutputs.
  rewrite fold_burnStep. lia.
Qed.

Lemma burnedSpec_dropZero (tx : Tx) :
  burnedSpec (dropZeroOutputs tx) = burnedSpec tx.
Proof.
  unfold burnedSpec, burnedOutputs, dropZeroOutputs. simpl.
  induction (outputs tx) as [|o os IH]; simpl; [reflexivity|].
  destruct (Z.eqb_spec (value o) 0) as [E|E]; simpl.
  - rewrite E. simpl. rewrite andb_false_r. exact IH.
  - destruct (isDataCarrying o && (0 <? value o)); simpl;
      rewrite ?sumZ_cons, ?IH; reflexivity.
Qed.

Lemma burnedSpec_no_data (tx : Tx) :
  Forall (fun o => isDataCarrying o = false) (outputs tx) -> burnedSpec tx = 0.
Proof.
  unfold burnedSpec, burnedOutputs.
  induction 1 as [|o os Ho _ IH]; simpl; [reflexivity|].
  rewrite Ho. simpl. exact IH.
Qed.

Lemma BigInt_toString_inj (a b : Z) :
  BigInt_toString a = BigInt_toString b -> a = b.
Proof. unfold BigInt_toString. apply pretty_Z_inj. Qed.

Lemma In_withSumBurnedSats (tx : Tx) (s : string) (l : list Tx) :
  In (tx, s) (map withSumBurnedSats l) ->
  s = BigInt_toString (getSumBurnedSats tx).
Proof.
  rewrite in_map_iff. intros (tx' & [= <- <-] & _). reflexivity.
Qed.

Section BurnOnTx.

Context `{lib : ScriptLibrary}.

Lemma toExplorerTxOutput_counter o c e c' :
  toExplorerTxOutput o c = Some (e, c') ->
  sumBurnedSats c' = sumBurnedSats c + counted o.
Proof.
  unfold toExplorerTxOutput, counted.
  destruct (fromBufferThrows (outputScript o)); [discriminate|].
  destruct (isDataOut (outputScript o)).
  - destruct (newScriptProcessorThrows (outputScript o)); [discriminate|].
    destruct (processScriptRANK (outputScript o)).
    + intros [= <- <-]. reflexivity.
    + destruct (addressOrPlain o); simpl; [|discriminate].
      intros [= <- <-]. reflexivity.
  - destruct (addressOrPlain o); simpl; [|discriminate].
    intros [= <- <-]. simpl. lia.
Qed.

Lemma mapOutputs_counter os : forall c es c',
  mapOutputs os c = Some (es, c') ->
  sumBurnedSats c' = sumBurnedSats c + sumZ (map counted os).
Proof.
  induction os as [|o os IH]; intros c es c'; simpl.
  - intros [= <- <-]. unfold sumZ; simpl; lia.
  - destruct (toExplorerTxOutput o c) as [[e c1]|] eqn:E; simpl; [|discriminate].
    destruct (mapOutputs os c1) as [[es1 c2]|] eqn:E2; simpl; [|discriminate].
    intros [= <- <-].
    rewrite (IH _ _ _ E2), (toExplorerTxOutput_counter _ _ _ _ E), sumZ_cons.
    lia.
Qed.

(** The total [GET /tx/:txid] reports is the sum of the values of the outputs
    the script library takes for data outputs, whatever their sign. *)
Lemma explorerTx_sum blockCount tx e :
  explorerTx blockCount tx = Some e ->
  txSumBurnedSats e = BigInt_toString (sumZ (map counted (outputs tx))).
Proof.
  unfold explorerTx.
  destruct (mapInputs (inputs tx)); simpl; [|discriminate].
  destruct (mapOutputs (outputs tx) (mkTxCounters 0)) as [[es c]|] eqn:E;
    simpl; [|discriminate].
  intros [= <-]. simpl. f_equal.
  rewrite (mapOutputs_counter _ _ _ _ E). simpl. lia.
Qed.

(** X3: the total of [GET /tx/:txid] and [getSumBurnedSats] coincide on a
    transaction whose outputs the script library classifies as the [6a]
    prefix test does and whose data outputs carry no negative value. *)
Theorem burn_totals_agree_when (blockCount : Z) (tx : Tx) (e : ExplorerTx) :
  Forall (fun o => isDataOut (outputScript o) = isDataCarrying o
                   /\ (isDataCarrying o = true -> 0 <= value o)) (outputs tx) ->
  explorerTx blockCount tx = Some e ->
  txSumBurnedSats e = BigInt_toString (getSumBurnedSats tx).
Proof.
  intros Hall He. rewrite (explorerTx_sum _ _ _ He), getSumBurnedSats_spec.
  f_equal. unfold burnedSpec, burnedOutputs.
  induction Hall as [|o os [Hd Hv] _ IH]; [reflexivity|].
  simpl. unfold counted at 1. rewrite Hd.
  destruct (isDataCarrying o) eqn:D; simpl.
  - destruct (Z.ltb_spec 0 (value o)); rewrite ?sumZ_cons, IH; [reflexivity|].
    specialize (Hv eq_refl). lia.
  - rewrite sumZ_cons, IH. lia.
Qed.

End BurnOnTx.

Lemma burn_totals_agree_when_witness :
  Forall (fun o => @isDataOut templateLibrary (outputScript o) = isDataCarrying o
                   /\ (isDataCarrying o = true -> 0 <= value o))
         (outputs exampleTx)
  /\ txSumBurnedSats <$> @explorerTx templateLibrary 10 exampleTx
     = Some (BigInt_toString (getSumBurnedSats exampleTx)).
Proof.
  assert (H : Forall (fun o => @isDataOut templateLibrary (outputScript o)
                               = isDataCarrying o
                               /\ (isDataCarrying o = true -> 0 <= value o))
                     (outputs exampleTx)).
  { repeat constructor; simpl; lia. }
  split; [exact H|].
  destruct (@explorerTx templateLibrary 10 exampleTx) as [e|] eqn:E;
    [|vm_compute in E; discriminate E].
  simpl. f_equal.
  exact (@burn_totals_agree_when templateLibrary 10 exampleTx e H E).
Defined.

(** C1: on [GET /tx/:txid] the reported [sumBurnedSats] is not the sum of the
    strictly positive values of the data-carrying outputs.  With a library
    whose [isDataOut] is the [6a] prefix test, a bare OP_RETURN output of
    value -1 yields "-1" where the specified sum is "0"; and for every library
    whose [isDataOut] rejects the script [6a6a], an output of value 1 with
    that script is left out of the total although the specified sum is "1". *)
Theorem sumBurnedSats_tx_endpoint_differs :
  (txSumBurnedSats <$> @explorerTx templateLibrary 0 (oneOutputTx "6a" (-1))
     = Some "-1"%string
   /\ BigInt_toString (burnedSpec (oneOutputTx "6a" (-1))) = "0"%string)
  /\ (forall (lib : ScriptLibrary) (blockCount : Z),
        isDataOut "6a6a" = false ->
        BigInt_toString (burnedSpec (oneOutputTx "6a6a" 1)) = "1"%string
        /\ txSumBurnedSats <$> explorerTx blockCount (oneOutputTx "6a6a" 1)
           <> Some "1"%string).
Proof.
  split; [split; reflexivity|].
  intros lib bc D. split; [reflexivity|].
  destruct (explorerTx bc (oneOutputTx "6a6a" 1)) as [e|] eqn:E; simpl;
    [|discriminate].
  rewrite (explorerTx_sum _ _ _ E). simpl. unfold counted. simpl. rewrite D.
  discriminate.
Qed.

(** X1: every transaction of an address-history page and of a block-lookup
    response carries, as [sumBurnedSats], the decimal text of the exact sum
    of the values of the outputs whose script hex begins with [6a] and whose
    value is strictly positive; outputs of value 0 do not contribute, and
    without such a script the text is "0". *)
Theorem sumBurnedSats_of_history_and_block `{lib : ScriptLibrary}
    (history : string -> Z -> Z -> TxHistoryPage + string)
    (address : string) (query : PageQuery)
    (chronik_block : string -> Block + string) (hashOrHeight : string)
    (tx : Tx) (s : string) :
  (exists l n,
     addressHandler history address query = AddressHistory l n /\ In (tx, s) l)
  \/ (exists info l m,
        blockHandler chronik_block hashOrHeight = BlockExplorer info l m
        /\ In (tx, s) l) ->
  s = BigInt_toString (sumZ (map value (burnedOutputs tx)))
  /\ s = BigInt_toString (getSumBurnedSats (dropZeroOutputs tx))
  /\ (Forall (fun o => isDataCarrying o = false) (outputs tx) -> s = "0"%string).
Proof.
  intros H.
  assert (Hs : s = BigInt_toString (getSumBurnedSats tx)).
  { destruct H as [(l & n & Hh & Hin) | (info & l & m & Hh & Hin)].
    - unfold addressHandler in Hh.
      destruct (String.eqb address ""); [discriminate|].
      destruct (negb (addressIsValid address)); [discriminate|].
      destruct (historyArgs query) as [pageIndex pageSizeNum].
      destruct (history address pageIndex pageSizeNum) as [h|msg];
        [|discriminate].
      injection Hh as <- _. eapply In_withSumBurnedSats, Hin.
    - unfold blockHandler in Hh.
      destruct (String.eqb hashOrHeight ""); [discriminate|].
      destruct (chronik_block hashOrHeight) as [b|msg]; [|discriminate].
      destruct (height (blockInfo b) =? 0); [discriminate|].
      destruct (minedByOf _); [|discriminate].
      injection Hh as _ <- _. eapply In_withSumBurnedSats, Hin. }
  split; [|split].
  - rewrite Hs, getSumBurnedSats_spec. reflexivity.
  - rewrite Hs, !getSumBurnedSats_spec, burnedSpec_dropZero. reflexivity.
  - intros Hnone.
    rewrite Hs, getSumBurnedSats_spec, burnedSpec_no_data by exact Hnone.
    reflexivity.
Qed.

Lemma sumBurnedSats_of_history_and_block_witness :
  ((exists l n,
      @addressHandler templateLibrary exampleHistory exampleAddress
                      (mkPageQuery NaN NaN) = AddressHistory l n
      /\ In (exampleTx, "100"%string) l)
   \/ (exists info l m,
         @blockHandler templateLibrary (fun _ => inl exampleBlock) "7"
         = BlockExplorer info l m
         /\ In (exampleTx, "100"%string) l))
  /\ "100"%string = BigInt_toString (sumZ (map value (burnedOutputs exampleTx))).
Proof.
  assert (H : (exists l n,
      @addressHandler templateLibrary exampleHistory exampleAddress
                      (mkPageQuery NaN NaN) = AddressHistory l n
      /\ In (exampleTx, "100"%string) l)
   \/ (exists info l m,
         @blockHandler templateLibrary (fun _ => inl exampleBlock) "7"
         = BlockExplorer info l m
         /\ In (exampleTx, "100"%string) l)).
  { left. eexists _, _. split; [reflexivity|]. left. reflexivity. }
  split; [exact H|].
  exact (proj1 (@sumBurnedSats_of_history_and_block templateLibrary
                  _ _ _ _ _ _ _ H)).
Defined.

(** C10: the two burn totals do not agree.  Whatever the script library
    answers on the script [6a6a] (OP_RETURN followed by OP_RETURN), one of the
    two transactions carrying it, with value 1 or with value -1, gets from
    [GET /tx/:txid] a total other than [getSumBurnedSats]: the accumulation of
    [toExplorerTxOutput] goes by [isDataOut] and has no test of the sign. *)
Theorem burn_totals_disagree (lib : ScriptLibrary) (blockCount : Z) :
  txSumBurnedSats <$> explorerTx blockCount (oneOutputTx "6a6a" 1)
    <> Some (BigInt_toString (getSumBurnedSats (oneOutputTx "6a6a" 1)))
  \/ txSumBurnedSats <$> explorerTx blockCount (oneOutputTx "6a6a" (-1))
    <> Some (BigInt_toString (getSumBurnedSats (oneOutputTx "6a6a" (-1)))).
Proof.
  destruct (isDataOut "6a6a") eqn:D; [right | left];
    (destruct (explorerTx blockCount (oneOutputTx "6a6a" _)) as [e|] eqn:E;
     simpl; [|discriminate]);
    rewrite (explorerTx_sum _ _ _ E); simpl; unfold counted; simpl; rewrite D;
    intros [= H%BigInt_toString_inj]; vm_compute in H; discriminate.
Qed.

(** ** Output enrichment *)




(** ** Pagination *)

Lemma pageSizeNumOf_replaced (query : PageQuery) (size : Z) :
  DefaultOrClamped (pageSize query) size -> pageSizeNumOf query = size.
Proof.
  unfold pageSizeNumOf. intros H.
  inversion H as [E|E|z Hz E]; simpl; try reflexivity.
  unfold MAX_PAGE_SIZE in *.
  destruct (Z.eqb_spec z 0); [lia|].
  destruct (Z.gtb_spec z 40); [reflexivity|lia].
Qed.

Lemma pageSizeNumOf_le_max (query : PageQuery) :
  pageSizeNumOf query <= MAX_PAGE_SIZE.
Proof.
  unfold pageSizeNumOf.
  destruct (Z.gtb_spec (orDefault (pageSize query) DEFAULT_PAGE_SIZE)
                       MAX_PAGE_SIZE); lia.
Qed.

(** C2, as amended: a raw [pageSize] that is non-numeric, absent or equal to
    0 gives DEFAULT_PAGE_SIZE, one above MAX_PAGE_SIZE gives MAX_PAGE_SIZE,
    and this is the size the address-history handler passes to the indexer
    and the blocks handler computes its window with. *)
Theorem pageSize_default_and_clamp (query : PageQuery) (size : Z) :
  DefaultOrClamped (pageSize query) size ->
  pageSizeNumOf query = size
  /\ (forall (lib : ScriptLibrary) history address,
        address <> ""%string ->
        addressIsValid address = true ->
        addressHandler history address query =
        match history address (historyArgs query).1 size with
        | inr message => AddressError NOT_FOUND message
        | inl h => AddressHistory (map withSumBurnedSats (txs h)) (numPages h)
        end)
  /\ (forall chronik_blocks tip,
        blocksHandler chronik_blocks tip query =
        let '(lo, hi) := blocksWindow tip size (pageNumOf query) in
        mkBlocksResponse (rev (chronik_blocks lo hi)) tip).
Proof.
  intros H. pose proof (pageSizeNumOf_replaced _ _ H) as E.
  split; [exact E|]. split.
  - intros lib history address Hne Hvalid. unfold addressHandler.
    destruct (String.eqb_spec address ""); [contradiction|].
    rewrite Hvalid. unfold historyArgs. simpl. rewrite E. reflexivity.
  - intros cb tip. unfold blocksHandler. rewrite E. reflexivity.
Qed.

Lemma pageSize_default_and_clamp_witness :
  DefaultOrClamped (pageSize clampedQuery) MAX_PAGE_SIZE
  /\ pageSizeNumOf clampedQuery = 40.
Proof.
  assert (H : DefaultOrClamped (pageSize clampedQuery) MAX_PAGE_SIZE)
    by (apply size_above; reflexivity).
  split; [exact H|].
  exact (proj1 (pageSize_default_and_clamp _ _ H)).
Defined.

(** C2, as stated, fails on a negative raw value: [pageSize=-5] is truthy and
    not above the maximum, so it is the effective page size of both
    handlers. *)
Lemma negative_pageSize_kept :
  pageSizeNumOf (mkPageQuery NaN (Num (-5))) = -5
  /\ (historyArgs (mkPageQuery NaN (Num (-5)))).2 <> DEFAULT_PAGE_SIZE
  /\ blocksWindow 100 (pageSizeNumOf (mkPageQuery NaN (Num (-5)))) 1 = (106, 100).
Proof.
  split; [reflexivity|]. split; [|reflexivity].
  vm_compute. discriminate.
Qed.

Lemma Z2Qc_eq_0 (z : Z) : Qc_of_Z z = 0%Qc <-> z = 0.
Proof. rewrite <- Z2Qc_inj_0. apply Z2Qc_inj_iff. Qed.

Lemma orDefaultD_integer (n : JsNumber) (d : Z) :
  orDefaultD (toDouble n) (Qc_of_Z d) = Qc_of_Z (orDefault n d).
Proof.
  destruct n as [|z]; simpl; [reflexivity|].
  destruct (decide (Qc_of_Z z = 0%Qc)) as [E|E];
    destruct (Z.eqb_spec z 0) as [E'|E']; try reflexivity.
  - apply Z2Qc_eq_0 in E. contradiction.
  - subst z. exfalso. apply E, Z2Qc_inj_0.
Qed.

Lemma pageNumD_integer (query : PageQuery) :
  pageNumD (toDouble (page query)) = Qc_of_Z (pageNumOf query).
Proof.
  unfold pageNumD, pageNumOf. rewrite <- Z2Qc_inj_1. apply orDefaultD_integer.
Qed.

Lemma pageSizeNumD_integer (query : PageQuery) :
  pageSizeNumD (toDouble (pageSize query)) = Qc_of_Z (pageSizeNumOf query).
Proof.
  unfold pageSizeNumD, pageSizeNumOf. rewrite orDefaultD_integer.
  destruct (decide _) as [H|H];
    destruct (Z.gtb_spec (orDefault (pageSize query) DEFAULT_PAGE_SIZE)
                         MAX_PAGE_SIZE) as [H'|H']; try reflexivity.
  - apply (proj2 (Z2Qc_inj_lt _ _)) in H. lia.
  - exfalso. apply H. apply (proj1 (Z2Qc_inj_lt _ _)). lia.
Qed.

Lemma historyPageD_integer (query : PageQuery) :
  historyPageD (toDouble (page query)) = Qc_of_Z (historyArgs query).1.
Proof.
  unfold historyPageD, historyArgs. rewrite pageNumD_integer. simpl.
  rewrite <- Z2Qc_inj_0.
  destruct (decide _) as [H|H];
    destruct (Z.gtb_spec (pageNumOf query) 0) as [H'|H'].
  - rewrite Z2Qc_inj_sub, Z2Qc_inj_1. reflexivity.
  - apply (proj2 (Z2Qc_inj_lt _ _)) in H. lia.
  - exfalso. apply H. apply (proj1 (Z2Qc_inj_lt _ _)). lia.
  - reflexivity.
Qed.

Lemma Qclt_irrefl (x : Qc) : ~ (x < x)%Qc.
Proof. apply Qcle_not_lt, Qcle_refl. Qed.

Lemma Qc_minus_one_neg (q : Qc) : (q - 1 < 0)%Qc <-> (q < 1)%Qc.
Proof.
  rewrite (Qcplus_lt_mono_r (q - 1) 0 1).
  replace (q - 1 + 1)%Qc with q by ring.
  replace (0 + 1)%Qc with 1%Qc by ring. reflexivity.
Qed.

(** X4: the page index the address-history handler passes to the indexer is
    negative exactly when the page number lies strictly between 0 and 1; it
    is 0 for every page number that is not positive, and never negative when
    the page number is an integer or not a number. *)
Theorem history_page_index_sign (raw : JsDouble) (query : PageQuery) :
  ((historyPageD raw < 0)%Qc
   <-> exists q, raw = DNum q /\ (0 < q)%Qc /\ (q < 1)%Qc)
  /\ (forall q, raw = DNum q -> (q <= 0)%Qc -> historyPageD raw = 0%Qc)
  /\ historyPageD (toDouble (page query)) = Qc_of_Z (historyArgs query).1
  /\ 0 <= (historyArgs query).1.
Proof.
  split; [|split; [|split; [apply historyPageD_integer|]]].
  - unfold historyPageD, pageNumD, orDefaultD. split.
    + intros H. destruct raw as [|q].
      * destruct (decide _) in H; [|exact (False_ind _ (Qclt_irrefl _ H))].
        replace (1 - 1)%Qc with 0%Qc in H by ring.
        exact (False_ind _ (Qclt_irrefl _ H)).
      * destruct (decide (q = 0%Qc)).
        -- destruct (decide _) in H; [|exact (False_ind _ (Qclt_irrefl _ H))].
           replace (1 - 1)%Qc with 0%Qc in H by ring.
           exact (False_ind _ (Qclt_irrefl _ H)).
        -- destruct (decide (0 < q)%Qc) as [Hq|Hq];
             [|exact (False_ind _ (Qclt_irrefl _ H))].
           exists q. repeat split; [exact Hq | apply Qc_minus_one_neg, H].
    + intros (q & -> & H0 & H1).
      destruct (decide (q = 0%Qc)) as [->|_];
        [exact (False_ind _ (Qclt_irrefl _ H0))|].
      destruct (decide (0 < q)%Qc); [|contradiction].
      apply Qc_minus_one_neg, H1.
  - intros q -> Hq. unfold historyPageD, pageNumD, orDefaultD.
    destruct (decide (q = 0%Qc)) as [_|_].
    + destruct (decide _); [ring | reflexivity].
    + destruct (decide (0 < q)%Qc) as [H|_]; [|reflexivity].
      exfalso. exact (Qcle_not_lt _ _ Hq H).
  - unfold historyArgs. simpl.
    destruct (Z.gtb_spec (pageNumOf query) 0); lia.
Qed.

(** ** Block-range listing *)

Lemma blocksWindow_eq (tip size pageNum : Z) :
  size <= MAX_PAGE_SIZE ->
  blocksWindow tip size pageNum =
  (Z.max 1 (tip - size * pageNum + 1), tip - size * pageNum + size).
Proof.
  intros Hs. unfold blocksWindow.
  destruct (Z.gtb_spec size MAX_PAGE_SIZE); [lia|].
  destruct (Z.gtb_spec (tip - size * pageNum + 1) 0); f_equal; lia.
Qed.

Lemma ascendingWithin_bounds (bs : list BlockInfo) : forall lo hi,
  ascendingWithin lo hi bs = true ->
  Forall (fun b => lo <= height b <= hi) bs
  /\ Z.of_nat (length bs) <= Z.max 0 (hi - lo + 1)
  /\ StronglySorted Z.lt (map height bs).
Proof.
  induction bs as [|b bs IH]; intros lo hi H; simpl in *.
  - repeat split; [constructor | lia | constructor].
  - apply andb_prop in H as [H1 H3]. apply andb_prop in H1 as [H1 H2].
    apply Z.leb_le in H1, H2.
    destruct (IH _ _ H3) as (Hall & Hlen & Hsorted).
    repeat split.
    + constructor; [lia|].
      eapply Forall_impl; [exact Hall|]. simpl. intros; lia.
    + lia.
    + constructor; [exact Hsorted|].
      apply Forall_map. eapply Forall_impl; [exact Hall|]. simpl. intros; lia.
Qed.

Lemma StronglySorted_snoc_gt (a : Z) (l : list Z) :
  StronglySorted Z.gt l -> Forall (fun x => x > a) l ->
  StronglySorted Z.gt (l ++ [a]).
Proof.
  induction 1 as [|x l Hs IH Hx]; intros Hall; simpl.
  - repeat constructor.
  - inversion Hall; subst. constructor; [auto|].
    apply Forall_app. split; [exact Hx|]. repeat constructor. lia.
Qed.

Lemma StronglySorted_rev_gt (l : list Z) :
  StronglySorted Z.lt l -> StronglySorted Z.gt (rev l).
Proof.
  induction 1 as [|a l Hs IH Ha]; simpl; [constructor|].
  apply StronglySorted_snoc_gt; [exact IH|].
  apply Forall_rev. eapply Forall_impl; [exact Ha|]. simpl. intros; lia.
Qed.



(** ** Block lookup *)

Section BlockLookupTheorems.

Context `{lib : ScriptLibrary}.

Lemma minedByOf_annotated (l : list Tx) :
  minedByOf (map withSumBurnedSats l) =
  match l with
  | [] => None
  | coinbase :: _ =>
      match outputs coinbase !! 1%nat with
      | Some second => toXAddress <$> toAddress (outputScript second)
      | None => None
      end
  end.
Proof.
  unfold minedByOf. destruct l as [|coinbase l]; [reflexivity|]. simpl.
  destruct (outputs coinbase !! 1%nat) as [second|]; reflexivity.
Qed.


(** C8: a lookup that resolves to a block of height 0 answers with the
    indexer's block itself: no [minedBy], the transactions as they came. *)
Theorem genesis_block_as_is (chronik_block : string -> Block + string)
    (hashOrHeight : string) (block : Block) :
  hashOrHeight <> ""%string ->
  chronik_block hashOrHeight = inl block ->
  height (blockInfo block) = 0 ->
  blockHandler chronik_block hashOrHeight = BlockAsIs block.
Proof.
  intros Hne Hb Hh. unfold blockHandler.
  destruct (String.eqb_spec hashOrHeight ""); [contradiction|].
  rewrite Hb, Hh. reflexivity.
Qed.

End BlockLookupTheorems.


Lemma genesis_block_as_is_witness :
  "0"%string <> ""%string
  /\ height (blockInfo genesisBlock) = 0
  /\ @blockHandler templateLibrary (fun _ => inl genesisBlock) "0"
     = BlockAsIs genesisBlock.
Proof.
  assert (H1 : "0"%string <> ""%string) by discriminate.
  assert (H2 : height (blockInfo genesisBlock) = 0) by reflexivity.
  split; [exact H1|]. split; [exact H2|].
  exact (@genesis_block_as_is templateLibrary (fun _ => inl genesisBlock) "0"
           genesisBlock H1 eq_refl H2).
Defined.

(** ** Peer geolocation assembler *)

Lemma peerAction_cases (cache : gmap string GeoIPResponse) (peer : PeerInfo) :
  match peerAction cache peer with
  | Skip => isPrivateAddr (addr peer) = true \/ stripPort (addr peer) = ""%string
  | Hit p =>
      isPrivateAddr (addr peer) = false
      /\ exists cached, cache !! stripPort (addr peer) = Some cached
           /\ p = mkPeerInfo (peerId peer) (stripPort (addr peer))
                             (Some (data cached))
  | Lookup ip =>
      isPrivateAddr (addr peer) = false
      /\ ip = stripPort (addr peer) /\ cache !! ip = None
  end.
Proof.
  unfold peerAction, isPrivateAddr.
  destruct (matchPrivateV4 (addr peer) || matchPrivateV6 (addr peer));
    [left; reflexivity|].
  destruct (String.eqb_spec (stripPort (addr peer)) ""); [right; assumption|].
  destruct (cache !! stripPort (addr peer)) as [cached|] eqn:E.
  - split; [reflexivity|]. exists cached. split; reflexivity.
  - repeat split; first [reflexivity | exact E].
Qed.

Lemma onResponse_keeps cache peer ip json k :
  is_Some (cache !! k) -> is_Some ((onResponse cache peer ip json).1 !! k).
Proof.
  unfold onResponse. destruct (success json); simpl; [|auto].
  intros H. destruct (decide (ip = k)) as [->|Hne].
  - rewrite lookup_insert_eq. eauto.
  - rewrite lookup_insert_ne by exact Hne. exact H.
Qed.

(** No step removes a cache entry, and no step looks up a cached address. *)
Lemma step_keeps_entry (P : Process) (e : Event) (Q : Process) (k : string) :
  step P e Q -> is_Some (cacheOf P !! k) ->
  is_Some (cacheOf Q !! k) /\ e <> Fetch k.
Proof.
  intros Hstep Hk. inversion Hstep; subst; simpl in *;
    try (split; [exact Hk | discriminate]).
  - split; [exact Hk|]. intros [= ->].
    match goal with H : peerAction _ _ = Lookup _ |- _ =>
      pose proof (peerAction_cases cache peer) as Hc; rewrite H in Hc end.
    destruct Hc as (_ & _ & Hnone). rewrite Hnone in Hk.
    destruct Hk; discriminate.
  - split; [apply onResponse_keeps, Hk | discriminate].
Qed.

(** C5: once the cache holds an entry for a bare IP, no later step of any
    request, in any interleaving, issues an external lookup of that IP; the
    entry stays, and a peer with that bare IP is either filtered out or
    listed with the data of the cached record. *)
Theorem cached_ip_never_fetched_again (P Q : Process) (tr : list Event)
    (k : string) :
  is_Some (cacheOf P !! k) ->
  run P tr Q ->
  ~ In (Fetch k) tr
  /\ is_Some (cacheOf Q !! k)
  /\ forall peer cached,
       stripPort (addr peer) = k ->
       cacheOf Q !! k = Some cached ->
       peerAction (cacheOf Q) peer = Skip
       \/ peerAction (cacheOf Q) peer
          = Hit (mkPeerInfo (peerId peer) k (Some (data cached))).
Proof.
  intros Hk Hrun. induction Hrun as [P | P e Q tr R Hstep Hrun IH].
  - split; [intros []|]. split; [exact Hk|].
    intros peer cached Hip Hc.
    pose proof (peerAction_cases (cacheOf P) peer) as Hcase.
    destruct (peerAction (cacheOf P) peer) as [|p|ip'].
    + left; reflexivity.
    + right. destruct Hcase as (_ & c' & Hc' & ->).
      rewrite Hip, Hc in Hc'. injection Hc' as <-. rewrite Hip. reflexivity.
    + destruct Hcase as (_ & -> & Hnone). rewrite Hip, Hc in Hnone.
      discriminate.
  - destruct (step_keeps_entry _ _ _ k Hstep Hk) as [Hk' Hne].
    destruct (IH Hk') as (Hnot & HkR & Huse).
    split; [|split; assumption].
    intros [Heq | Hin]; [exact (Hne Heq) | exact (Hnot Hin)].
Qed.

Lemma cached_ip_never_fetched_again_witness :
  is_Some (cacheOf warmProcess !! "8.8.8.8"%string)
  /\ run warmProcess [Silent; Silent]
         (mkProcess {[ "8.8.8.8"%string := googleDns ]}
            [Responded [mkPeerInfo 1 "8.8.8.8" (Some (data googleDns))]])
  /\ ~ In (Fetch "8.8.8.8") [Silent; Silent].
Proof.
  assert (H1 : is_Some (cacheOf warmProcess !! "8.8.8.8"%string))
    by (eexists; reflexivity).
  assert (H2 : run warmProcess [Silent; Silent]
         (mkProcess {[ "8.8.8.8"%string := googleDns ]}
            [Responded [mkPeerInfo 1 "8.8.8.8" (Some (data googleDns))]])).
  { apply (run_step _ Silent
             (mkProcess {[ "8.8.8.8"%string := googleDns ]}
                [Running [] [mkPeerInfo 1 "8.8.8.8" (Some (data googleDns))]])).
    - exact (step_hit {[ "8.8.8.8"%string := googleDns ]}
               [Running [publicPeer] []] 0%nat publicPeer [] []
               (mkPeerInfo 1 "8.8.8.8" (Some (data googleDns)))
               eq_refl eq_refl).
    - apply (run_step _ Silent
               (mkProcess {[ "8.8.8.8"%string := googleDns ]}
                  [Responded [mkPeerInfo 1 "8.8.8.8" (Some (data googleDns))]])
               [] _); [|apply run_done].
      exact (step_respond {[ "8.8.8.8"%string := googleDns ]}
               [Running [] [mkPeerInfo 1 "8.8.8.8" (Some (data googleDns))]]
               0%nat _ eq_refl). }
  split; [exact H1|]. split; [exact H2|].
  exact (proj1 (cached_ip_never_fetched_again _ _ _ _ H1 H2)).
Defined.

(** C4: peers on private IPv6 addresses reach the response.  The filter tests
    the address as the node reports it, port and brackets included: neither
    [[fd00::1]:10605], nor [::1:10605], nor [[::1]:10605] matches, so each is
    looked up and, the service answering with success, listed. *)
Theorem private_ipv6_peers_listed :
  (overview geoAlways
     [mkPeerInfo 1 "[fd00::1]:10605" None; mkPeerInfo 2 "::1:10605" None;
      mkPeerInfo 3 "[::1]:10605" None]
     coldState).2
  = Some [mkPeerInfo 1 "[fd00::1]" (Some (mkGeoIPData "Nowhere" "None"));
          mkPeerInfo 2 "::1" (Some (mkGeoIPData "Nowhere" "None"));
          mkPeerInfo 3 "[::1]" (Some (mkGeoIPData "Nowhere" "None"))].
Proof. vm_compute. reflexivity. Qed.

Lemma private_ipv4_matches (a b c d : N) (rest : string) :
  isPrivateV4 a b = true ->
  matchPrivateV4 (dottedQuad a b c d +:+ rest) = true.
Proof.
  unfold isPrivateV4. intros H.
  assert (Hcases : (a = 10 \/ a = 127 \/ a = 192 /\ b = 168
                    \/ a = 169 /\ b = 254 \/ a = 172 /\ (16 <= b <= 31))%N).
  { destruct (N.eqb_spec a 10); [clear H; lia|].
    destruct (N.eqb_spec a 127); [clear H; lia|].
    destruct (N.eqb_spec a 172), (N.leb_spec 16 b), (N.leb_spec b 31),
      (N.eqb_spec a 192), (N.eqb_spec b 168), (N.eqb_spec a 169),
      (N.eqb_spec b 254); simpl in H; try discriminate H; clear H; lia. }
  clear H. unfold dottedQuad.
  destruct Hcases as [-> | [-> | [[-> ->] | [[-> ->] | [-> Hb]]]]];
    try (lazy; reflexivity).
  assert (Hn : exists n : nat, (n < 16)%nat /\ b = N.of_nat (16 + n)).
  { exists (N.to_nat b - 16)%nat. lia. }
  destruct Hn as (n & Hn & ->).
  do 16 (destruct n as [|n]; [lazy; reflexivity|]).
  lia.
Qed.

(** X2: a peer whose address is a dotted quad of a private, loopback or
    link-local IPv4 range, followed by anything, is skipped whatever the
    cache holds: the loop goes on with the state and the list unchanged. *)
Theorem private_ipv4_peer_skipped (geo : list string -> string -> FetchResult)
    (peer : PeerInfo) (a b c d : N) (port : string) :
  isPrivateV4 a b = true ->
  addr peer = dottedQuad a b c d +:+ port ->
  forall (rest : list PeerInfo) (st : GeoState) (peers : list PeerInfo),
    peerAction (GEOIP_CACHE st) peer = Skip
    /\ overviewLoop geo (peer :: rest) st peers = overviewLoop geo rest st peers.
Proof.
  intros Hp Ha rest st peers.
  assert (Hskip : peerAction (GEOIP_CACHE st) peer = Skip).
  { unfold peerAction.
    rewrite Ha, (private_ipv4_matches _ _ _ _ _ Hp). reflexivity. }
  split; [exact Hskip|]. simpl. rewrite Hskip. reflexivity.
Qed.

Lemma private_ipv4_peer_skipped_witness :
  isPrivateV4 192 168 = true
  /\ addr lanPeer = dottedQuad 192 168 1 5 +:+ ":1234"
  /\ peerAction (GEOIP_CACHE warmState) lanPeer = Skip.
Proof.
  assert (H1 : isPrivateV4 192 168 = true) by reflexivity.
  assert (H2 : addr lanPeer = dottedQuad 192 168 1 5 +:+ ":1234")
    by reflexivity.
  split; [exact H1|]. split; [exact H2|].
  exact (proj1 (private_ipv4_peer_skipped geoDown _ _ _ _ _ _ H1 H2 []
                  warmState [])).
Defined.

(** C6, as amended: a peer whose lookup comes back with [success] false is
    left out, its IP stays out of the cache, and the loop goes on with the
    remaining peers. *)
Theorem unsuccessful_lookup_omits_peer
    (geo : list string -> string -> FetchResult)
    (peer : PeerInfo) (rest : list PeerInfo) (st : GeoState)
    (peers : list PeerInfo) (ip : string) (json : GeoIPResponse) :
  peerAction (GEOIP_CACHE st) peer = Lookup ip ->
  geo (lookups st) ip = FetchJson json ->
  success json = false ->
  let st' := mkGeoState (GEOIP_CACHE st) (lookups st ++ [ip]) in
  overviewLoop geo (peer :: rest) st peers = overviewLoop geo rest st' peers
  /\ GEOIP_CACHE st' !! ip = None.
Proof.
  intros Ha Hg Hs st'. split.
  - simpl. rewrite Ha, Hg. unfold onResponse.
    rewrite Hs, app_nil_r. reflexivity.
  - pose proof (peerAction_cases (GEOIP_CACHE st) peer) as Hc.
    rewrite Ha in Hc. destruct Hc as (_ & _ & Hnone). exact Hnone.
Qed.

Lemma unsuccessful_lookup_omits_peer_witness :
  peerAction (GEOIP_CACHE warmState) otherPeer = Lookup "1.1.1.1"
  /\ overviewLoop geoUnknown [otherPeer; publicPeer] warmState []
     = overviewLoop geoUnknown [publicPeer]
         (mkGeoState (GEOIP_CACHE warmState) ["1.1.1.1"%string]) [].
Proof.
  assert (H : peerAction (GEOIP_CACHE warmState) otherPeer = Lookup "1.1.1.1")
    by reflexivity.
  split; [exact H|].
  exact (proj1 (unsuccessful_lookup_omits_peer geoUnknown otherPeer [publicPeer]
                  warmState [] "1.1.1.1" _ H eq_refl eq_refl)).
Defined.

(** C6, as stated, fails when the lookup throws: nothing catches the
    exception, so the request gives no response, although the peer that
    follows is cached and an unsuccessful answer would have let it through. *)
Lemma thrown_lookup_fails_request :
  overview geoDown [otherPeer; publicPeer] warmState
  = (mkGeoState (GEOIP_CACHE warmState) ["1.1.1.1"%string], None)
  /\ overview geoUnknown [otherPeer; publicPeer] warmState
     = (mkGeoState (GEOIP_CACHE warmState) ["1.1.1.1"%string],
        Some [mkPeerInfo 1 "8.8.8.8" (Some (data googleDns))]).
Proof. split; reflexivity. Qed.

(** X5: an IP the external service never locates stays out of the cache and
    out of the listing, through the whole loop and whatever else is looked
    up. *)
Theorem never_located_ip_stays_out (geo : list string -> string -> FetchResult)
    (k : string) (peerInfo : list PeerInfo) :
  neverLocates geo k ->
  forall (st : GeoState) (peers : list PeerInfo),
    GEOIP_CACHE st !! k = None ->
    Forall (fun p => addr p <> k) peers ->
    GEOIP_CACHE (overviewLoop geo peerInfo st peers).1 !! k = None
    /\ forall listed, (overviewLoop geo peerInfo st peers).2 = Some listed ->
         Forall (fun p => addr p <> k) listed.
Proof.
  intros Hgeo.
  induction peerInfo as [|peer rest IH]; intros st peers Hc Hp; simpl.
  - split; [exact Hc|]. intros listed [= <-]. exact Hp.
  - pose proof (peerAction_cases (GEOIP_CACHE st) peer) as Hcase.
    destruct (peerAction (GEOIP_CACHE st) peer) as [|p|ip'].
    + apply IH; assumption.
    + destruct Hcase as (_ & cached & Hcached & ->).
      apply IH; [exact Hc|]. apply Forall_app. split; [exact Hp|].
      constructor; [|constructor]. simpl. intros E. rewrite E, Hc in Hcached.
      discriminate.
    + destruct Hcase as (_ & Hip & Hnone).
      destruct (geo (lookups st) ip') as [|json] eqn:Hg; simpl.
      * split; [exact Hc | discriminate].
      * unfold onResponse. destruct (success json) eqn:Hs.
        -- assert (Hne : ip' <> k).
           { intros ->. specialize (Hgeo (lookups st)). rewrite Hg in Hgeo.
             congruence. }
           apply IH; simpl.
           ++ rewrite lookup_insert_ne by exact Hne. exact Hc.
           ++ apply Forall_app. split; [exact Hp|].
              constructor; [|constructor]. simpl. exact Hne.
        -- rewrite app_nil_r. apply IH; simpl; assumption.
Qed.

Lemma never_located_ip_stays_out_witness :
  neverLocates geoUnknown "1.1.1.1"
  /\ GEOIP_CACHE warmState !! "1.1.1.1"%string = None
  /\ GEOIP_CACHE (overviewLoop geoUnknown [otherPeer; publicPeer] warmState []).1
       !! "1.1.1.1"%string = None.
Proof.
  assert (H1 : neverLocates geoUnknown "1.1.1.1") by (intros issued; reflexivity).
  assert (H2 : GEOIP_CACHE warmState !! "1.1.1.1"%string = None) by reflexivity.
  split; [exact H1|]. split; [exact H2|].
  assert (H3 : Forall (fun p => addr p <> "1.1.1.1"%string) []) by constructor.
  exact (proj1 (never_located_ip_stays_out geoUnknown "1.1.1.1"
                  [otherPeer; publicPeer] H1 warmState [] H2 H3)).
Defined.

(** *** The loop is one schedule of the interleaved model *)

Lemma run_one (P : Process) (e : Event) (Q : Process) :
  step P e Q -> run P [e] Q.
Proof. intros H. eapply run_step; [exact H | apply run_done]. Qed.

(** Run alone from a state, the loop of [overviewLoop] is a run of the step
    relation: it ends in the same cache and the same request outcome, and
    the lookups it logs are the [Fetch] events of the trace. *)
Theorem overviewLoop_is_a_run (geo : list string -> string -> FetchResult)
    (peerInfo : list PeerInfo) : forall (st : GeoState) (peers : list PeerInfo),
  exists tr,
    run (mkProcess (GEOIP_CACHE st) [Running peerInfo peers]) tr
        (mkProcess (GEOIP_CACHE (overviewLoop geo peerInfo st peers).1)
                   [outcomeRequest (overviewLoop geo peerInfo st peers).2])
    /\ lookups (overviewLoop geo peerInfo st peers).1
       = lookups st ++ fetchesOf tr.
Proof.
  induction peerInfo as [|peer rest IH]; intros st peers; simpl.
  - exists []. split; [apply run_done | simpl; rewrite app_nil_r; reflexivity].
  - destruct (peerAction (GEOIP_CACHE st) peer) as [|p|ip] eqn:Ha.
    + destruct (IH st peers) as (tr & Hrun & Hl).
      exists (Silent :: tr). split; [|exact Hl].
      eapply run_step; [|exact Hrun].
      exact (step_skip _ [Running (peer :: rest) peers] 0%nat peer rest peers
               eq_refl Ha).
    + destruct (IH st (peers ++ [p])) as (tr & Hrun & Hl).
      exists (Silent :: tr). split; [|exact Hl].
      eapply run_step; [|exact Hrun].
      exact (step_hit _ [Running (peer :: rest) peers] 0%nat peer rest peers p
               eq_refl Ha).
    + pose proof (step_lookup _ [Running (peer :: rest) peers] 0%nat peer rest
                    peers ip eq_refl Ha) as Hissue.
      destruct (geo (lookups st) ip) as [|json] eqn:Hg; simpl.
      * exists [Fetch ip; Silent]. split; [|reflexivity].
        eapply run_step; [exact Hissue|]. apply run_one.
        exact (step_throw _ [Awaiting peer ip rest peers] 0%nat peer ip rest
                 peers eq_refl).
      * destruct (onResponse (GEOIP_CACHE st) peer ip json)
          as [cache pushed] eqn:Ho.
        destruct (IH (mkGeoState cache (lookups st ++ [ip])) (peers ++ pushed))
          as (tr & Hrun & Hl).
        exists (Fetch ip :: Silent :: tr). split.
        -- eapply run_step; [exact Hissue|]. eapply run_step; [|exact Hrun].
           pose proof (step_json (GEOIP_CACHE st) [Awaiting peer ip rest peers]
                         0%nat peer ip rest peers json eq_refl) as Hj.
           rewrite Ho in Hj. exact Hj.
        -- rewrite Hl. simpl. rewrite <- app_assoc. reflexivity.
Qed.

(** ** Decimal texts and [parseInt] *)

Lemma isDigit_cases (c : ascii) :
  isDigit c = true ->
  (c = "0" \/ c = "1" \/ c = "2" \/ c = "3" \/ c = "4" \/ c = "5" \/ c = "6"
   \/ c = "7" \/ c = "8" \/ c = "9")%char.
Proof.
  destruct c as [[] [] [] [] [] [] [] []]; vm_compute; intros H;
    try discriminate H; auto 10.
Qed.

Lemma pretty_N_char_digit (d : N) : isDigit (pretty_N_char d) = true.
Proof. unfold pretty_N_char. repeat case_match; reflexivity. Qed.

Lemma pretty_N_char_value (d : N) :
  (d < 10)%N -> digitValue 10 (pretty_N_char d) = Some (Z.of_N d).
Proof.
  intros H.
  assert (d = 0 \/ d = 1 \/ d = 2 \/ d = 3 \/ d = 4 \/ d = 5 \/ d = 6 \/ d = 7
          \/ d = 8 \/ d = 9)%N as Hd by lia.
  repeat (destruct Hd as [-> | Hd]; [reflexivity|]). subst. reflexivity.
Qed.

Lemma allDigits_cons c s : allDigits (String c s) = isDigit c && allDigits s.
Proof. reflexivity. Qed.

Lemma pretty_N_go_digits (x : N) : forall s,
  allDigits (pretty_N_go x s) = allDigits s.
Proof.
  induction (N.lt_wf_0 x) as [x _ IH]; intros s.
  assert (x = 0 \/ 0 < x)%N as [->|Hpos] by lia; [reflexivity|].
  rewrite pretty_N_go_step by exact Hpos.
  rewrite IH by (apply N.div_lt; lia).
  rewrite allDigits_cons, pretty_N_char_digit. reflexivity.
Qed.

Lemma pretty_N_go_value (x : N) : forall s,
  parseDigits 10 0 (pretty_N_go x s) = parseDigits 10 (Z.of_N x) s.
Proof.
  induction (N.lt_wf_0 x) as [x _ IH]; intros s.
  assert (x = 0 \/ 0 < x)%N as [->|Hpos] by lia; [reflexivity|].
  rewrite pretty_N_go_step by exact Hpos.
  rewrite IH by (apply N.div_lt; lia). simpl.
  rewrite pretty_N_char_value by (apply N.mod_lt; lia).
  f_equal. rewrite (N.div_mod x 10) at 3 by lia. lia.
Qed.

Lemma pretty_N_go_nonempty (x : N) : forall s,
  (0 < x)%N \/ s <> ""%string -> pretty_N_go x s <> ""%string.
Proof.
  induction (N.lt_wf_0 x) as [x _ IH]; intros s H.
  assert (x = 0 \/ 0 < x)%N as [->|Hpos] by lia.
  - rewrite pretty_N_go_0. destruct H as [H|H]; [lia | exact H].
  - rewrite pretty_N_go_step by exact Hpos.
    apply IH; [apply N.div_lt; lia|]. right. discriminate.
Qed.

Lemma pretty_N_digits (x : N) : allDigits (pretty x) = true.
Proof.
  unfold pretty, pretty_N. case_decide; [reflexivity|].
  apply pretty_N_go_digits.
Qed.

Lemma pretty_N_nonempty (x : N) : pretty x <> ""%string.
Proof.
  unfold pretty, pretty_N. case_decide; [discriminate|].
  apply pretty_N_go_nonempty. left. lia.
Qed.

Lemma pretty_N_value (x : N) : parseDigits 10 0 (pretty x) = Z.of_N x.
Proof.
  unfold pretty, pretty_N. case_decide as H; [subst; reflexivity|].
  apply pretty_N_go_value.
Qed.

(** A text of decimal digits is read as the number it spells. *)
Lemma magnitude_digits (s : string) :
  s <> ""%string -> allDigits s = true ->
  magnitude s = Num (parseDigits 10 0 s).
Proof.
  intros Hne Hd. destruct s as [|c r]; [contradiction|].
  rewrite allDigits_cons in Hd. apply andb_prop in Hd as [Hc Hr].
  assert (Hsplit : splitRadix (String c r) = (10, String c r)).
  { destruct r as [|x r']; simpl.
    - destruct (isDigit_cases c Hc) as [->|[->|[->|[->|[->|[->|[->|[->|[->| ->]]]]]]]]];
        reflexivity.
    - rewrite allDigits_cons in Hr. apply andb_prop in Hr as [Hx _].
      destruct (isDigit_cases c Hc) as [->|[->|[->|[->|[->|[->|[->|[->|[->| ->]]]]]]]]];
        try reflexivity.
      destruct (isDigit_cases x Hx) as [->|[->|[->|[->|[->|[->|[->|[->|[->| ->]]]]]]]]];
        reflexivity. }
  unfold magnitude. rewrite Hsplit.
  destruct (isDigit_cases c Hc) as [->|[->|[->|[->|[->|[->|[->|[->|[->| ->]]]]]]]]];
    reflexivity.
Qed.

Lemma splitSign_digit c r :
  isDigit c = true -> splitSign (String c r) = (1, String c r).
Proof.
  intros Hc.
  destruct (isDigit_cases c Hc) as [->|[->|[->|[->|[->|[->|[->|[->|[->| ->]]]]]]]]];
    reflexivity.
Qed.

Lemma trimStart_digit c r :
  isDigit c = true -> trimStart (String c r) = String c r.
Proof.
  intros Hc.
  destruct (isDigit_cases c Hc) as [->|[->|[->|[->|[->|[->|[->|[->|[->| ->]]]]]]]]];
    reflexivity.
Qed.

Lemma parseInt_minus (s : string) :
  parseInt (String "-" s) =
  match magnitude s with
  | NaN => NaN
  | Num m => Num (- m)
  end.
Proof.
  unfold parseInt. simpl. destruct (magnitude s) as [|[]]; reflexivity.
Qed.

(** [parseInt] reads back the decimal text of every integer. *)
Lemma parseInt_of_decimal (z : Z) : parseInt (pretty z) = Num z.
Proof.
  assert (Hpos : forall p : positive,
            magnitude (pretty (N.pos p)) = Num (Z.pos p)
            /\ exists c r, pretty (N.pos p) = String c r /\ isDigit c = true).
  { intros p. split.
    - rewrite magnitude_digits, pretty_N_value;
        [reflexivity | apply pretty_N_nonempty | apply pretty_N_digits].
    - pose proof (pretty_N_nonempty (N.pos p)) as Hne.
      pose proof (pretty_N_digits (N.pos p)) as Hd.
      destruct (pretty (N.pos p)) as [|c r]; [contradiction|].
      rewrite allDigits_cons in Hd. apply andb_prop in Hd as [Hc _].
      eauto. }
  destruct z as [|p|p].
  - reflexivity.
  - change (pretty (Z.pos p)) with (pretty (N.pos p)).
    destruct (Hpos p) as (Hm & c & r & E & Hc).
    unfold parseInt. rewrite E, (trimStart_digit _ _ Hc), (splitSign_digit _ _ Hc).
    rewrite <- E, Hm. reflexivity.
  - change (pretty (Z.neg p)) with ("-" +:+ pretty (N.pos p)).
    destruct (Hpos p) as (Hm & c & r & E & Hc).
    change ("-" +:+ pretty (N.pos p)) with (String "-" (pretty (N.pos p))).
    rewrite parseInt_minus, Hm. reflexivity.
Qed.

(** ** Prefix tests on decimal octets *)

Ltac digit_cases c H :=
  destruct (isDigit_cases c H)
    as [->|[->|[->|[->|[->|[->|[->|[->|[->| ->]]]]]]]]].

Lemma digit_not_dot c : isDigit c = true -> Ascii.eqb c "." = false.
Proof. intros H. digit_cases c H; reflexivity. Qed.

Lemma dot_not_digit c : isDigit c = true -> Ascii.eqb "." c = false.
Proof. intros H. digit_cases c H; reflexivity. Qed.

Lemma append_cons c s t : String c s +:+ t = String c (s +:+ t).
Proof. reflexivity. Qed.

Lemma append_nil t : "" +:+ t = t.
Proof. reflexivity. Qed.

Lemma startsWith_cons c p d s :
  startsWith (String c p) (String d s) = Ascii.eqb c d && startsWith p s.
Proof. reflexivity. Qed.

Lemma string_eqb_cons c p d s :
  String.eqb (String c p) (String d s) = Ascii.eqb c d && String.eqb p s.
Proof. simpl. destruct (Ascii.eqb c d); reflexivity. Qed.

(** A pattern of digits and a dot against digits and a dot. *)
Lemma startsWith_octet (D : string) : forall (pa P t : string),
  allDigits D = true -> allDigits pa = true ->
  startsWith (D +:+ String "." P) (pa +:+ String "." t)
  = String.eqb D pa && startsWith P t.
Proof.
  induction D as [|d D IH]; intros pa P t HD Hpa.
  - destruct pa as [|c pa]; rewrite ?append_nil, ?append_cons, startsWith_cons.
    + reflexivity.
    + rewrite allDigits_cons in Hpa. apply andb_prop in Hpa as [Hc _].
      rewrite (dot_not_digit _ Hc). reflexivity.
  - rewrite allDigits_cons in HD. apply andb_prop in HD as [Hd HD].
    destruct pa as [|c pa]; rewrite ?append_nil, ?append_cons, startsWith_cons.
    + rewrite (digit_not_dot _ Hd). reflexivity.
    + rewrite allDigits_cons in Hpa. apply andb_prop in Hpa as [Hc Hpa].
      rewrite (IH pa P t HD Hpa), string_eqb_cons.
      destruct (Ascii.eqb d c); reflexivity.
Qed.

Ltac split_digits s H :=
  let c := fresh "c" in
  let Hc := fresh "Hc" in
  destruct s as [|c s];
  [ | rewrite allDigits_cons in H; apply andb_prop in H as [Hc H];
      digit_cases c Hc ];
  rewrite ?append_nil, ?append_cons.

(** The alternative [172\.(1[6-9]|2[0-9]|3[0-1])\.] on a dotted text. *)
Lemma match172_octets (pa pb pc u : string) :
  pa <> ""%string -> pb <> ""%string -> pc <> ""%string ->
  allDigits pa = true -> allDigits pb = true -> allDigits pc = true ->
  match pa +:+ String "." (pb +:+ String "." (pc +:+ u)) with
  | String "1" (String "7" (String "2" (String "."
      (String a (String b (String "." _)))))) =>
      (Ascii.eqb a "1" && inRange "6" "9" b
       || Ascii.eqb a "2" && inRange "0" "9" b
       || Ascii.eqb a "3" && inRange "0" "1" b)%char
  | _ => false
  end = String.eqb "172" pa && isOctet16to31 pb.
Proof.
  intros Na Nb Nc Ha Hb Hc.
  split_digits pa Ha; [contradiction|..]; try reflexivity.
  split_digits pa Ha; try reflexivity.
  split_digits pa Ha; try reflexivity.
  split_digits pa Ha; try reflexivity.
  clear Na Ha.
  split_digits pb Hb; [contradiction|..];
    (split_digits pb Hb;
     [ split_digits pc Hc; [contradiction|..]; reflexivity
     | .. ]);
    (split_digits pb Hb; [reflexivity|..]); reflexivity.
Qed.

Lemma append_assoc_str (x y z : string) : (x +:+ y) +:+ z = x +:+ (y +:+ z).
Proof. induction x as [|c x IH]; [reflexivity|]. rewrite !append_cons, IH. reflexivity. Qed.

Lemma string_eqb_pretty (a k : N) : String.eqb (pretty a) (pretty k) = (a =? k)%N.
Proof.
  destruct (N.eqb_spec a k) as [->|Hne].
  - apply String.eqb_refl.
  - apply String.eqb_neq. intros E. apply Hne. exact (pretty_N_inj _ _ E).
Qed.

Lemma isOctet16to31_pretty (b : N) :
  isOctet16to31 (pretty b) = ((16 <=? b) && (b <=? 31))%N.
Proof.
  unfold isOctet16to31.
  change (existsb (String.eqb (pretty b))
            (map pretty [16; 17; 18; 19; 20; 21; 22; 23; 24; 25; 26; 27; 28; 29;
                         30; 31]%N)
          = ((16 <=? b) && (b <=? 31))%N).
  simpl. rewrite !string_eqb_pretty.
  destruct (N.leb_spec 16 b), (N.leb_spec b 31); simpl;
    repeat match goal with
           | |- context [(b =? ?k)%N] => destruct (N.eqb_spec b k); try lia
           end; try reflexivity.
Qed.

Lemma dottedQuad_text (a b c d : N) (rest : string) :
  dottedQuad a b c d +:+ rest
  = pretty a +:+ String "." (pretty b +:+ String "."
      (pretty c +:+ (String "." (pretty d +:+ rest)))).
Proof.
  unfold dottedQuad. rewrite !append_assoc_str, !append_cons, !append_nil.
  reflexivity.
Qed.

Lemma matchPrivateV6_digit (c : ascii) (s : string) :
  isDigit c = true -> matchPrivateV6 (String c s) = false.
Proof.
  intros H. unfold matchPrivateV6.
  assert (E : oneOf "fF" c = false) by (digit_cases c H; reflexivity).
  assert (E' : String.eqb (String c s) "::1" = false)
    by (rewrite string_eqb_cons; digit_cases c H; reflexivity).
  rewrite E'. simpl orb.
  destruct s as [|c2 [|c3 [|c4 [|c5 s]]]]; try reflexivity.
  rewrite E. simpl andb.
  destruct c5 as [[] [] [] [] [] [] [] []]; reflexivity.
Qed.

(** On a dotted quad, whatever follows it, the first regular expression
    matches exactly the private ranges and the second never does. *)
Lemma ipv4_filter_exact (a b c d : N) (rest : string) :
  matchPrivateV4 (dottedQuad a b c d +:+ rest) = isPrivateV4 a b
  /\ matchPrivateV6 (dottedQuad a b c d +:+ rest) = false.
Proof.
  rewrite dottedQuad_text.
  pose proof (pretty_N_digits a) as Da. pose proof (pretty_N_digits b) as Db.
  pose proof (pretty_N_digits c) as Dc.
  pose proof (pretty_N_nonempty a) as Na. pose proof (pretty_N_nonempty b) as Nb.
  pose proof (pretty_N_nonempty c) as Nc.
  split.
  - unfold matchPrivateV4.
    rewrite (match172_octets _ _ _ _ Na Nb Nc Da Db Dc).
    change "127."%string with ("127" +:+ String "." "").
    change "10."%string with ("10" +:+ String "." "").
    change "192.168."%string with ("192" +:+ String "." ("168" +:+ String "." "")).
    change "169.254."%string with ("169" +:+ String "." ("254" +:+ String "." "")).
    rewrite !startsWith_octet by (reflexivity || assumption).
    change "127"%string with (pretty 127%N). change "10"%string with (pretty 10%N).
    change "192"%string with (pretty 192%N). change "168"%string with (pretty 168%N).
    change "169"%string with (pretty 169%N). change "254"%string with (pretty 254%N).
    change "172"%string with (pretty 172%N).
    rewrite !string_eqb_pretty, isOctet16to31_pretty.
    unfold isPrivateV4. simpl startsWith.
    rewrite !(N.eqb_sym _ a), !(N.eqb_sym _ b).
    destruct (a =? 127)%N, (a =? 10)%N, (a =? 192)%N, (a =? 172)%N, (a =? 169)%N,
      (b =? 168)%N, (b =? 254)%N, (16 <=? b)%N, (b <=? 31)%N; reflexivity.
  - unfold matchPrivateV6.
    destruct (pretty a) as [|c1 pa]; [contradiction|].
    rewrite allDigits_cons in Da. apply andb_prop in Da as [H1 _].
    rewrite append_cons. apply matchPrivateV6_digit, H1.
Qed.

(** ** Port stripping and the IPv4 filter *)

Lemma list_ascii_app (s t : string) :
  list_ascii_of_string (s +:+ t) = list_ascii_of_string s ++ list_ascii_of_string t.
Proof.
  induction s as [|c s IH]; [reflexivity|].
  rewrite append_cons. simpl. rewrite IH. reflexivity.
Qed.

Lemma isPortDigits_colon (h p : string) : isPortDigits (h +:+ String ":" p) = false.
Proof.
  unfold isPortDigits. rewrite list_ascii_app, forallb_app. simpl.
  rewrite andb_false_r. reflexivity.
Qed.

Lemma stripPort_app_port (host port : string) :
  isPortDigits port = true -> stripPort (host +:+ String ":" port) = host.
Proof.
  intros Hp. induction host as [|c host IH].
  - rewrite append_nil. simpl. rewrite Hp. reflexivity.
  - rewrite append_cons. simpl. rewrite isPortDigits_colon, andb_false_r, IH.
    reflexivity.
Qed.

Lemma string_length_app (s t : string) :
  String.length (s +:+ t) = (String.length s + String.length t)%nat.
Proof.
  induction s as [|c s IH]; [reflexivity|].
  rewrite append_cons. simpl. rewrite IH. reflexivity.
Qed.

Lemma colon_port (host port : string) :
  (host +:+ ":" +:+ port)%string = (host +:+ String ":" port)%string.
Proof. reflexivity. Qed.

(** X6: [addr.split(/\:\d{1,5}$/)[0]] either cuts exactly one final colon
    followed by one to five digits, or leaves unchanged an address that has
    no such suffix. *)
Theorem stripPort_keeps_or_cuts (s : string) :
  (exists port, isPortDigits port = true
                /\ s = (stripPort s +:+ ":" +:+ port)%string)
  \/ (stripPort s = s
      /\ forall host port, isPortDigits port = true ->
                           s <> (host +:+ ":" +:+ port)%string).
Proof.
  assert (A : (exists port, isPortDigits port = true
                            /\ s = (stripPort s +:+ String ":" port)%string)
              \/ stripPort s = s).
  { induction s as [|c s IH]; [right; reflexivity|]. simpl.
    destruct (Ascii.eqb_spec c ":") as [->|Hc]; simpl.
    - destruct (isPortDigits s) eqn:Hs.
      + left. exists s. split; [exact Hs | reflexivity].
      + destruct IH as [(port & Hp & E)|E].
        * left. exists port. split; [exact Hp|]. rewrite append_cons, <- E.
          reflexivity.
        * right. rewrite E. reflexivity.
    - destruct IH as [(port & Hp & E)|E].
      + left. exists port. split; [exact Hp|]. rewrite append_cons, <- E.
        reflexivity.
      + right. rewrite E. reflexivity. }
  destruct A as [(port & Hp & E)|E].
  - left. exists port. split; [exact Hp|].
    exact E.
  - right. split; [exact E|]. intros host port Hp Hs.
    rewrite colon_port in Hs.
    pose proof (stripPort_app_port host port Hp) as R. rewrite <- Hs, E in R.
    apply (f_equal String.length) in Hs. rewrite R, string_length_app in Hs.
    simpl in Hs. lia.
Qed.

Lemma dottedQuad_nonempty (a b c d : N) : dottedQuad a b c d <> ""%string.
Proof.
  pose proof (dottedQuad_text a b c d "") as E.
  assert (A : forall s, (s +:+ "")%string = s).
  { induction s as [|x s IH]; [reflexivity|]. rewrite append_cons, IH. reflexivity. }
  rewrite A in E. rewrite E.
  pose proof (pretty_N_nonempty a) as Na.
  destruct (pretty a) as [|x pa]; [contradiction|]. rewrite append_cons. discriminate.
Qed.

(** X7: a peer whose address is a dotted quad with a port is skipped exactly
    when the quad lies in 10/8, 127/8, 172.16/12, 192.168/16 or 169.254/16;
    any other is served from the cache under the bare quad when the cache
    holds it, and looked up under the bare quad when it does not. *)
Theorem ipv4_peer_action (cache : gmap string GeoIPResponse) (peer : PeerInfo)
    (a b c d : N) (port : string) :
  addr peer = (dottedQuad a b c d +:+ ":" +:+ port)%string ->
  isPortDigits port = true ->
  peerAction cache peer
  = if isPrivateV4 a b then Skip
    else match cache !! dottedQuad a b c d with
         | Some cached =>
             Hit (mkPeerInfo (peerId peer) (dottedQuad a b c d)
                             (Some (data cached)))
         | None => Lookup (dottedQuad a b c d)
         end.
Proof.
  intros Ha Hp. unfold peerAction.
  rewrite Ha, colon_port.
  destruct (ipv4_filter_exact a b c d (String ":" port)) as [-> ->].
  rewrite orb_false_r. destruct (isPrivateV4 a b); [reflexivity|].
  rewrite stripPort_app_port by exact Hp.
  destruct (String.eqb_spec (dottedQuad a b c d) "") as [E0|_];
    [exfalso; exact (dottedQuad_nonempty _ _ _ _ E0) | reflexivity].
Qed.

Lemma ipv4_peer_action_witness :
  peerAction ∅ (mkPeerInfo 1 "8.8.8.8:10605" None) = Lookup "8.8.8.8"
  /\ peerAction ∅ (mkPeerInfo 9 "172.20.0.1:80" None) = Skip.
Proof.
  split.
  - exact (ipv4_peer_action ∅ (mkPeerInfo 1 "8.8.8.8:10605" None) 8 8 8 8 "10605"
             eq_refl eq_refl).
  - exact (ipv4_peer_action ∅ (mkPeerInfo 9 "172.20.0.1:80" None) 172 20 0 1 "80"
             eq_refl eq_refl).
Defined.

(** ** The IPv6 filter *)

Lemma hexDigit_classes (c : ascii) :
  isHexDigit c = true ->
  (hexValue c < 16)%N
  /\ oneOf "fF" c = (hexValue c =? 15)%N
  /\ oneOf "cCdD" c = ((hexValue c =? 12) || (hexValue c =? 13))%N
  /\ oneOf "eE" c = (hexValue c =? 14)%N
  /\ oneOf "89aAbB" c = ((8 <=? hexValue c) && (hexValue c <=? 11))%N
  /\ Ascii.eqb "." c = false.
Proof.
  destruct c as [[] [] [] [] [] [] [] []]; intros H; try discriminate H;
    vm_compute; repeat split; reflexivity.
Qed.

Lemma match172_no_dot (c1 c2 c3 c4 : ascii) (rest : string) :
  Ascii.eqb "." c4 = false ->
  match String c1 (String c2 (String c3 (String c4 rest))) with
  | String "1" (String "7" (String "2" (String "."
      (String a (String b (String "." _)))))) =>
      (Ascii.eqb a "1" && inRange "6" "9" b
       || Ascii.eqb a "2" && inRange "0" "9" b
       || Ascii.eqb a "3" && inRange "0" "1" b)%char
  | _ => false
  end = false.
Proof.
  intros H.
  destruct c1 as [[] [] [] [] [] [] [] []]; try reflexivity.
  destruct c2 as [[] [] [] [] [] [] [] []]; try reflexivity.
  destruct c3 as [[] [] [] [] [] [] [] []]; try reflexivity.
  destruct c4 as [[] [] [] [] [] [] [] []]; try reflexivity.
  discriminate H.
Qed.

Lemma matchPrivateV4_hextet (c1 c2 c3 c4 : ascii) (rest : string) :
  Ascii.eqb "." c3 = false -> Ascii.eqb "." c4 = false ->
  matchPrivateV4 (String c1 (String c2 (String c3 (String c4 rest)))) = false.
Proof.
  intros H3 H4. unfold matchPrivateV4.
  rewrite (match172_no_dot _ _ _ _ _ H4).
  rewrite !startsWith_cons, H3, H4, !andb_false_r. reflexivity.
Qed.

Lemma matchPrivateV6_hextet (c1 c2 c3 c4 : ascii) (rest : string) :
  matchPrivateV6 (String c1 (String c2 (String c3 (String c4 (String ":" rest)))))
  = oneOf "fF" c1 && oneOf "cCdD" c2 && isHexDigit c3 && isHexDigit c4
    || oneOf "fF" c1 && oneOf "eE" c2 && oneOf "89aAbB" c3 && isHexDigit c4.
Proof.
  unfold matchPrivateV6.
  replace (String.eqb _ "::1") with false; [reflexivity|].
  symmetry. apply String.eqb_neq. intros E.
  apply (f_equal String.length) in E. discriminate E.
Qed.

(** X8: on an unbracketed IPv6 address whose first group is written with
    four hexadecimal digits, the filter matches exactly the groups of
    fc00::/7 and fe80::/10, and the peer of a matching address is skipped. *)
Theorem ipv6_peer_filter (cache : gmap string GeoIPResponse) (peer : PeerInfo)
    (c1 c2 c3 c4 : ascii) (rest : string) :
  addr peer = String c1 (String c2 (String c3 (String c4 (String ":" rest)))) ->
  isHexDigit c1 = true -> isHexDigit c2 = true ->
  isHexDigit c3 = true -> isHexDigit c4 = true ->
  isPrivateAddr (addr peer) = isPrivateV6 (hextet c1 c2 c3 c4)
  /\ (isPrivateV6 (hextet c1 c2 c3 c4) = true -> peerAction cache peer = Skip).
Proof.
  intros Ha H1 H2 H3 H4.
  assert (E : isPrivateAddr (addr peer) = isPrivateV6 (hextet c1 c2 c3 c4)).
  { unfold isPrivateAddr. rewrite Ha, matchPrivateV6_hextet.
    destruct (hexDigit_classes c1 H1) as (L1 & F1 & _).
    destruct (hexDigit_classes c2 H2) as (L2 & _ & C2 & E2 & _).
    destruct (hexDigit_classes c3 H3) as (L3 & _ & _ & _ & B3 & D3).
    destruct (hexDigit_classes c4 H4) as (L4 & _ & _ & _ & _ & D4).
    rewrite (matchPrivateV4_hextet _ _ _ _ _ D3 D4), H3, H4, F1, C2, E2, B3.
    unfold isPrivateV6, hextet. simpl orb. rewrite !andb_true_r.
    clear F1 C2 E2 B3.
    generalize dependent (hexValue c1). generalize dependent (hexValue c2).
    generalize dependent (hexValue c3). generalize dependent (hexValue c4).
    intros v4 L4 v3 L3 v2 L2 v1 L1.
    destruct (N.eqb_spec v1 15), (N.eqb_spec v2 12), (N.eqb_spec v2 13),
      (N.eqb_spec v2 14), (N.leb_spec 8 v3), (N.leb_spec v3 11); simpl;
      repeat match goal with
             | |- context [(?x <=? ?y)%N] => destruct (N.leb_spec x y)
             end; simpl; try reflexivity; lia. }
  split; [exact E|]. intros Hp. unfold peerAction.
  unfold isPrivateAddr in E. rewrite E, Hp. reflexivity.
Qed.

Lemma ipv6_peer_filter_witness :
  peerAction ∅ (mkPeerInfo 4 "fd00::1" None) = Skip
  /\ isPrivateAddr "2001:db8::1" = false.
Proof.
  split.
  - exact (proj2 (ipv6_peer_filter ∅ (mkPeerInfo 4 "fd00::1" None)
                    "f" "d" "0" "0" ":1" eq_refl eq_refl eq_refl eq_refl eq_refl)
                 eq_refl).
  - exact (proj1 (ipv6_peer_filter ∅ (mkPeerInfo 4 "2001:db8::1" None)
                    "2" "0" "0" "1" "db8::1" eq_refl eq_refl eq_refl eq_refl eq_refl)).
Defined.

(** ** Pages of the block listing *)

Lemma window_page (tip size pageNum h : Z) :
  1 <= size -> 1 <= pageNum ->
  (Z.max 1 (tip - size * pageNum + 1) <= h <= tip - size * pageNum + size
   <-> 1 <= h <= tip /\ pageNum = (tip - h) / size + 1).
Proof.
  intros Hs Hp. split.
  - intros [Hlo Hhi]. split; [nia|].
    assert (E : pageNum - 1 = (tip - h) / size).
    { apply (Z.div_unique_pos _ _ _ (tip - h - size * (pageNum - 1))); nia. }
    lia.
  - intros [[H1 Ht] E].
    pose proof (Z.div_mod (tip - h) size ltac:(lia)) as Hd.
    pose proof (Z.mod_pos_bound (tip - h) size ltac:(lia)) as Hm.
    nia.
Qed.

Lemma blocksWindowD_integer (tip : Z) (query : PageQuery) :
  blocksWindowD tip (pageSizeNumD (toDouble (pageSize query)))
                (pageNumD (toDouble (page query)))
  = (Qc_of_Z (blocksWindow tip (pageSizeNumOf query) (pageNumOf query)).1,
     Qc_of_Z (blocksWindow tip (pageSizeNumOf query) (pageNumOf query)).2).
Proof.
  rewrite (blocksWindow_eq _ _ _ (pageSizeNumOf_le_max query)).
  unfold blocksWindowD. rewrite pageSizeNumD_integer, pageNumD_integer. simpl.
  pose proof (pageSizeNumOf_le_max query) as Hmax.
  set (size := pageSizeNumOf query) in *. set (pageNum := pageNumOf query).
  rewrite <- Z2Qc_inj_mul, <- Z2Qc_inj_sub, <- Z2Qc_inj_1, <- Z2Qc_inj_add,
    <- Z2Qc_inj_0.
  destruct (decide (Qc_of_Z MAX_PAGE_SIZE < Qc_of_Z size)%Qc) as [H|_];
    [apply (proj2 (Z2Qc_inj_lt _ _)) in H; lia|].
  rewrite <- Z2Qc_inj_add. f_equal.
  destruct (decide _) as [H|H].
  - apply (proj2 (Z2Qc_inj_lt _ _)) in H. f_equal. lia.
  - f_equal. destruct (Z.max_spec 1 (tip - size * pageNum + 1)) as [[? ->]|[? ->]];
      [|reflexivity].
    exfalso. apply H, (proj1 (Z2Qc_inj_lt _ _)). lia.
Qed.

Lemma pageSizeNumOf_integer (p s : Z) :
  1 <= s -> pageSizeNumOf (mkPageQuery (Num p) (Num s)) = Z.min s MAX_PAGE_SIZE.
Proof.
  intros Hs. unfold pageSizeNumOf, MAX_PAGE_SIZE. simpl.
  destruct (Z.eqb_spec s 0); [lia|].
  destruct (Z.gtb_spec s 40); lia.
Qed.

Lemma pageNumOf_integer (p s : Z) :
  1 <= p -> pageNumOf (mkPageQuery (Num p) (Num s)) = p.
Proof.
  intros Hp. unfold pageNumOf. simpl. destruct (Z.eqb_spec p 0); [lia|].
  reflexivity.
Qed.

(** The window of an integer page of an integer size. *)
Lemma blocksWindowD_page (tip p s : Z) :
  1 <= p -> 1 <= s ->
  blocksWindowD tip (pageSizeNumD (DNum (Qc_of_Z s)))
                (pageNumD (DNum (Qc_of_Z p)))
  = (Qc_of_Z (Z.max 1 (tip - Z.min s MAX_PAGE_SIZE * p + 1)),
     Qc_of_Z (tip - Z.min s MAX_PAGE_SIZE * p + Z.min s MAX_PAGE_SIZE)).
Proof.
  intros Hp Hs.
  change (DNum (Qc_of_Z p))
    with (toDouble (page (mkPageQuery (Num p) (Num s)))).
  change (DNum (Qc_of_Z s))
    with (toDouble (pageSize (mkPageQuery (Num p) (Num s)))).
  rewrite blocksWindowD_integer.
  rewrite (blocksWindow_eq _ _ _ (pageSizeNumOf_le_max _)),
    (pageSizeNumOf_integer p s Hs), (pageNumOf_integer p s Hp).
  reflexivity.
Qed.

(** X9: with an integer page number and an integer page size of at least 1,
    over an indexer that returns the blocks of the requested range, a block
    of the chain is on a page of [GET /blocks] exactly when its height [h]
    lies in [1 .. tip] and the page is [(tip - h) / size + 1], [size] the
    page size capped at MAX_PAGE_SIZE: the pages tile the chain above the
    genesis block, which is on none. *)
Theorem blocks_pages_tile (chain : list BlockInfo) (tip p s : Z)
    (b : BlockInfo) :
  1 <= p -> 1 <= s ->
  (In b (blocks (blocksHandlerD (chainBlocksD chain) tip
                                (DNum (Qc_of_Z p)) (DNum (Qc_of_Z s))))
   <-> In b chain /\ 1 <= height b <= tip
       /\ p = (tip - height b) / Z.min s MAX_PAGE_SIZE + 1).
Proof.
  intros Hp Hs. unfold blocksHandlerD.
  rewrite (blocksWindowD_page tip p s Hp Hs). simpl.
  rewrite <- in_rev, <- !list_elem_of_In. unfold chainBlocksD.
  rewrite list_elem_of_filter, <- !Z2Qc_inj_le.
  assert (Hsize : 1 <= Z.min s MAX_PAGE_SIZE) by (unfold MAX_PAGE_SIZE; lia).
  rewrite (window_page _ _ _ _ Hsize Hp). tauto.
Qed.

Lemma blocks_pages_tile_witness :
  In (mkBlockInfo 95 "")
     (blocks (blocksHandlerD (chainBlocksD (chainOf 101)) 100
                             (DNum (Qc_of_Z 1)) (DNum (Qc_of_Z 10))))
  /\ ~ In (mkBlockInfo 0 "")
          (blocks (blocksHandlerD (chainBlocksD (chainOf 101)) 100
                                  (DNum (Qc_of_Z 10)) (DNum (Qc_of_Z 10)))).
Proof.
  assert (H1 : 1 <= 1) by lia. assert (H10 : 1 <= 10) by lia.
  split.
  - apply (proj2 (blocks_pages_tile (chainOf 101) 100 1 10 (mkBlockInfo 95 "")
                    H1 H10)).
    split; [|vm_compute; split; [split; discriminate | reflexivity]].
    vm_compute. do 95 right. left. reflexivity.
  - intros H.
    destruct (proj1 (blocks_pages_tile (chainOf 101) 100 10 10
                       (mkBlockInfo 0 "") H10 H10) H) as (_ & [Hh _] & _).
    simpl in Hh. lia.
Defined.

(** One and a half pages of ten: the window of [?page=1.5&pageSize=10]. *)
Lemma blocksWindowD_fractional (tip : Z) :
  15 <= tip ->
  blocksWindowD tip (pageSizeNumD (DNum (Qc_of_Z 10)))
                (pageNumD (DNum (Q2Qc (QArith_base.Qmake 3 2))))
  = (Qc_of_Z (tip - 14), Qc_of_Z (tip - 5)).
Proof.
  intros Ht.
  assert (Es : pageSizeNumD (DNum (Qc_of_Z 10)) = Qc_of_Z 10).
  { change (DNum (Qc_of_Z 10))
      with (toDouble (pageSize (mkPageQuery NaN (Num 10)))).
    rewrite pageSizeNumD_integer. reflexivity. }
  assert (Ep : pageNumD (DNum (Q2Qc (QArith_base.Qmake 3 2))) = Q2Qc (QArith_base.Qmake 3 2)).
  { unfold pageNumD, orDefaultD. destruct (decide _) as [E|_]; [|reflexivity].
    apply (f_equal this) in E. discriminate E. }
  assert (Em : (Qc_of_Z 10 * Q2Qc (QArith_base.Qmake 3 2))%Qc = Qc_of_Z 15)
    by (apply Qc_is_canon; reflexivity).
  rewrite Es, Ep. unfold blocksWindowD. rewrite Em.
  rewrite <- Z2Qc_inj_sub, <- Z2Qc_inj_1, <- Z2Qc_inj_add, <- Z2Qc_inj_0.
  destruct (decide (Qc_of_Z MAX_PAGE_SIZE < Qc_of_Z 10)%Qc) as [H|_];
    [apply (proj2 (Z2Qc_inj_lt _ _)) in H; unfold MAX_PAGE_SIZE in H; lia|].
  rewrite <- Z2Qc_inj_add.
  destruct (decide _) as [H|H].
  - f_equal; f_equal; lia.
  - exfalso. apply H, (proj1 (Z2Qc_inj_lt _ _)). lia.
Qed.

(** The integers are needed: the blocks of heights [tip - 9 .. tip - 5] are
    on page 1 and on "page" 1.5 alike. *)
Lemma fractional_page_overlaps (chain : list BlockInfo) (tip : Z)
    (b : BlockInfo) :
  In b chain -> 15 <= tip -> tip - 9 <= height b <= tip - 5 ->
  In b (blocks (blocksHandlerD (chainBlocksD chain) tip
                               (DNum (Qc_of_Z 1)) (DNum (Qc_of_Z 10))))
  /\ In b (blocks (blocksHandlerD (chainBlocksD chain) tip
                                  (DNum (Q2Qc (QArith_base.Qmake 3 2))) (DNum (Qc_of_Z 10)))).
Proof.
  intros Hb Ht Hh. split.
  - unfold blocksHandlerD.
    rewrite (blocksWindowD_page tip 1 10 ltac:(lia) ltac:(lia)). simpl.
    rewrite <- in_rev, <- !list_elem_of_In. unfold chainBlocksD.
    rewrite list_elem_of_filter, <- !Z2Qc_inj_le, list_elem_of_In.
    unfold MAX_PAGE_SIZE. split; [lia | exact Hb].
  - unfold blocksHandlerD. rewrite (blocksWindowD_fractional tip Ht). simpl.
    rewrite <- in_rev, <- !list_elem_of_In. unfold chainBlocksD.
    rewrite list_elem_of_filter, <- !Z2Qc_inj_le, list_elem_of_In.
    split; [lia | exact Hb].
Qed.

(** ** Burn total of the history and block endpoints *)

(** X10: [getSumBurnedSats] is never negative, and over a list of outputs
    split in two it is the sum of the totals of the parts. *)
Theorem getSumBurnedSats_nonnegative_additive (id : string) (ins : list TxInput)
    (h : option Z) (os1 os2 : list TxOutput) :
  0 <= getSumBurnedSats (mkTx id ins os1 h)
  /\ getSumBurnedSats (mkTx id ins (os1 ++ os2) h)
     = getSumBurnedSats (mkTx id ins os1 h) + getSumBurnedSats (mkTx id ins os2 h).
Proof.
  unfold getSumBurnedSats. simpl. split.
  - rewrite fold_burnStep. induction os1 as [|o os IH]; simpl.
    + unfold sumZ. simpl. lia.
    + destruct (isDataCarrying o && (0 <? value o)) eqn:E; simpl; [|exact IH].
      rewrite sumZ_cons. apply andb_prop in E as [_ E]. apply Z.ltb_lt in E. lia.
  - rewrite fold_left_app, !fold_burnStep. lia.
Qed.

(** ** Transaction lookup *)

Section TxLookupTheorems.

Context `{lib : ScriptLibrary} {RawTransaction : Type}.

Lemma addressString_undecodable (script : string) :
  isAddressOut script = true ->
  (addressString script = None <-> undecodable script = true).
Proof.
  intros Ha. unfold addressString, undecodable. rewrite Ha. simpl.
  destruct (toAddress script) as [a|]; simpl; [split; discriminate | tauto].
Qed.

Lemma undecodable_address (script : string) :
  undecodable script = true -> isAddressOut script = true.
Proof. unfold undecodable. intros H. apply andb_prop in H as [H _]. exact H. Qed.

Lemma toExplorerTxInput_throws (i : TxInput) :
  toExplorerTxInput i = None <-> inputThrows i = true.
Proof.
  unfold toExplorerTxInput, inputThrows.
  destruct (prevOutputScript i) as [script|]; [|split; discriminate].
  destruct (String.eqb script ""); simpl; [split; discriminate|].
  destruct (fromBufferThrows script); simpl; [tauto|].
  destruct (isAddressOut script) eqn:Ha.
  - rewrite <- (addressString_undecodable _ Ha).
    destruct (addressString script); simpl; split; congruence.
  - split; [discriminate|]. intros H. apply undecodable_address in H. congruence.
Qed.

Lemma addressOrPlain_throws (o : TxOutput) :
  addressOrPlain o = None <-> undecodable (outputScript o) = true.
Proof.
  unfold addressOrPlain. destruct (isAddressOut (outputScript o)) eqn:Ha.
  - rewrite <- (addressString_undecodable _ Ha).
    destruct (addressString (outputScript o)); simpl; split; congruence.
  - split; [discriminate|]. intros H. apply undecodable_address in H. congruence.
Qed.

Lemma toExplorerTxOutput_throws (o : TxOutput) (c : TxCounters) :
  toExplorerTxOutput o c = None <-> outputThrows o = true.
Proof.
  unfold toExplorerTxOutput, outputThrows.
  destruct (fromBufferThrows (outputScript o)); simpl; [tauto|].
  destruct (isDataOut (outputScript o)); simpl.
  - destruct (newScriptProcessorThrows (outputScript o)); simpl; [tauto|].
    destruct (processScriptRANK (outputScript o)) as [r|]; simpl.
    + split; discriminate.
    + rewrite <- addressOrPlain_throws.
      destruct (addressOrPlain o); simpl; split; congruence.
  - rewrite <- addressOrPlain_throws.
    destruct (addressOrPlain o); simpl; split; congruence.
Qed.

Lemma toExplorerTxInput_frame (i : TxInput) (e : ExplorerTxInput) :
  toExplorerTxInput i = Some e -> input e = i.
Proof.
  unfold toExplorerTxInput.
  destruct (prevOutputScript i) as [script|]; [|intros [= <-]; reflexivity].
  destruct (String.eqb script ""); [intros [= <-]; reflexivity|].
  destruct (fromBufferThrows script); [discriminate|].
  destruct (isAddressOut script); [|intros [= <-]; reflexivity].
  destruct (addressString script); simpl; [|discriminate].
  intros [= <-]. reflexivity.
Qed.

Lemma addressOrPlain_frame (o : TxOutput) (e : ExplorerTxOutput) :
  addressOrPlain o = Some e -> output e = o.
Proof.
  unfold addressOrPlain. destruct (isAddressOut (outputScript o)).
  - destruct (addressString (outputScript o)); simpl; [|discriminate].
    intros [= <-]. reflexivity.
  - intros [= <-]. reflexivity.
Qed.

Lemma toExplorerTxOutput_frame o c e c' :
  toExplorerTxOutput o c = Some (e, c') -> output e = o.
Proof.
  unfold toExplorerTxOutput.
  destruct (fromBufferThrows (outputScript o)); [discriminate|].
  destruct (isDataOut (outputScript o)).
  - destruct (newScriptProcessorThrows (outputScript o)); [discriminate|].
    destruct (processScriptRANK (outputScript o)).
    + intros [= <- _]. reflexivity.
    + destruct (addressOrPlain o) eqn:E; simpl; [|discriminate].
      intros [= <- _]. eapply addressOrPlain_frame, E.
  - destruct (addressOrPlain o) eqn:E; simpl; [|discriminate].
    intros [= <- _]. eapply addressOrPlain_frame, E.
Qed.

Lemma mapInputs_frame (ins : list TxInput) : forall es,
  mapInputs ins = Some es -> map input es = ins.
Proof.
  induction ins as [|i ins IH]; intros es; simpl.
  - intros [= <-]. reflexivity.
  - destruct (toExplorerTxInput i) as [e|] eqn:E; simpl; [|discriminate].
    destruct (mapInputs ins) as [es'|]; simpl; [|discriminate].
    intros [= <-]. simpl. rewrite (toExplorerTxInput_frame _ _ E), (IH _ eq_refl).
    reflexivity.
Qed.

Lemma mapOutputs_frame (os : list TxOutput) : forall c es c',
  mapOutputs os c = Some (es, c') -> map output es = os.
Proof.
  induction os as [|o os IH]; intros c es c'; simpl.
  - intros [= <- _]. reflexivity.
  - destruct (toExplorerTxOutput o c) as [[e c1]|] eqn:E; simpl; [|discriminate].
    destruct (mapOutputs os c1) as [[es1 c2]|] eqn:E2; simpl; [|discriminate].
    intros [= <- _]. simpl.
    rewrite (toExplorerTxOutput_frame _ _ _ _ E), (IH _ _ _ E2). reflexivity.
Qed.

Lemma mapInputs_throws (ins : list TxInput) :
  mapInputs ins = None <-> existsb inputThrows ins = true.
Proof.
  induction ins as [|i ins IH]; simpl; [split; discriminate|].
  rewrite orb_true_iff, <- IH, <- toExplorerTxInput_throws.
  destruct (toExplorerTxInput i); simpl; [|tauto].
  destruct (mapInputs ins); simpl; split; try tauto; try discriminate.
  intros [H|H]; discriminate.
Qed.

Lemma mapOutputs_throws (os : list TxOutput) : forall c,
  mapOutputs os c = None <-> existsb outputThrows os = true.
Proof.
  induction os as [|o os IH]; intros c; simpl; [split; discriminate|].
  rewrite orb_true_iff, <- (toExplorerTxOutput_throws o c).
  destruct (toExplorerTxOutput o c) as [[e c1]|]; simpl; [|tauto].
  rewrite <- (IH c1).
  destruct (mapOutputs os c1) as [[es c2]|]; simpl; split; try tauto;
    try discriminate.
  intros [H|H]; discriminate.
Qed.

Lemma explorerTx_throws (blockCount : Z) (tx : Tx) :
  explorerTx blockCount tx = None
  <-> existsb inputThrows (inputs tx) || existsb outputThrows (outputs tx) = true.
Proof.
  unfold explorerTx. rewrite orb_true_iff, <- mapInputs_throws,
    <- (mapOutputs_throws _ (mkTxCounters 0)).
  destruct (mapInputs (inputs tx)); simpl; [|tauto].
  destruct (mapOutputs (outputs tx) (mkTxCounters 0)) as [[es c]|]; simpl;
    split; try tauto; try discriminate.
  intros [H|H]; discriminate.
Qed.

Lemma txHandler_parsed (getRawTransaction : string -> RawTransaction)
    (blockCount : Z) (chronik_tx : string -> option Tx) (txid : string)
    (raw : option string) :
  raw <> Some "1"%string ->
  txHandler getRawTransaction blockCount chronik_tx txid raw
  = match chronik_tx txid with
    | None => TxNotFound NOT_FOUND "transaction not found" txid
    | Some tx =>
        match explorerTx blockCount tx with
        | Some e => TxExplorer e
        | None => TxThrown
        end
    end.
Proof.
  intros Hr. unfold txHandler. destruct raw as [r|]; [|reflexivity].
  destruct (String.eqb_spec r "1") as [->|_]; [contradiction | reflexivity].
Qed.

Lemma txHandler_raw (getRawTransaction : string -> RawTransaction)
    (blockCount : Z) (chronik_tx : string -> option Tx) (txid : string) :
  txHandler getRawTransaction blockCount chronik_tx txid (Some "1"%string)
  = TxRaw (getRawTransaction txid).
Proof. reflexivity. Qed.

(** X11: a parsed answer of [GET /tx/:txid] is given only without [raw=1],
    for the transaction the indexer returned for that id; its inputs and
    outputs are those of the transaction, one for one and in order, each
    with its fields unchanged, and [confirmations] is
    [blockCount - height + 1], 0 for a transaction in no block. *)
Theorem tx_lookup_keeps_transaction
    (getRawTransaction : string -> RawTransaction) (blockCount : Z)
    (chronik_tx : string -> option Tx) (txid : string) (raw : option string)
    (e : ExplorerTx) :
  txHandler getRawTransaction blockCount chronik_tx txid raw = TxExplorer e ->
  raw <> Some "1"%string
  /\ chronik_tx txid = Some (etx e)
  /\ map input (explorerInputs e) = inputs (etx e)
  /\ map output (explorerOutputs e) = outputs (etx e)
  /\ confirmations e = match txBlockHeight (etx e) with
                       | Some h => blockCount - h + 1
                       | None => 0
                       end.
Proof.
  intros H.
  assert (Hr : raw <> Some "1"%string).
  { intros ->. rewrite txHandler_raw in H. discriminate. }
  split; [exact Hr|]. rewrite (txHandler_parsed _ _ _ _ _ Hr) in H.
  destruct (chronik_tx txid) as [tx|]; [|discriminate].
  unfold explorerTx in H.
  destruct (mapInputs (inputs tx)) as [ins|] eqn:Ei; simpl in H; [|discriminate].
  destruct (mapOutputs (outputs tx) (mkTxCounters 0)) as [[outs c]|] eqn:Eo;
    simpl in H; [|discriminate].
  injection H as <-. simpl.
  rewrite (mapInputs_frame _ _ Ei), (mapOutputs_frame _ _ _ _ Eo).
  repeat split; reflexivity.
Qed.

(** X12: [GET /tx/:txid] ends in an uncaught exception of the conversion of
    its inputs and outputs exactly when the request is not for the raw
    transaction, the indexer returns the transaction, and on one of its
    scripts the parser raises, or the RANK processor raises (a data output),
    or the erased non-null assertion on [toAddress()] does: an address-type
    script that decodes to no address, on an input with a non-empty script
    or on an output that is not answered as a RANK output. *)
Theorem tx_lookup_throws_iff
    (getRawTransaction : string -> RawTransaction) (blockCount : Z)
    (chronik_tx : string -> option Tx) (txid : string) (raw : option string) :
  txHandler getRawTransaction blockCount chronik_tx txid raw = TxThrown
  <-> raw <> Some "1"%string
      /\ exists tx, chronik_tx txid = Some tx
           /\ existsb inputThrows (inputs tx)
              || existsb outputThrows (outputs tx) = true.
Proof.
  split.
  - intros H.
    assert (Hr : raw <> Some "1"%string).
    { intros ->. rewrite txHandler_raw in H. discriminate. }
    split; [exact Hr|]. rewrite (txHandler_parsed _ _ _ _ _ Hr) in H.
    destruct (chronik_tx txid) as [tx|]; [|discriminate].
    exists tx. split; [reflexivity|]. apply (explorerTx_throws blockCount).
    destruct (explorerTx blockCount tx); [discriminate | reflexivity].
  - intros (Hr & tx & Htx & Hthrows).
    rewrite (txHandler_parsed _ _ _ _ _ Hr), Htx.
    apply (explorerTx_throws blockCount) in Hthrows. rewrite Hthrows.
    reflexivity.
Qed.

End TxLookupTheorems.

Lemma tx_lookup_throws_iff_witness :
  txHandler (lib := strictLibrary) (fun _ : string => tt) 10
            (fun _ => Some (mkTx "e2e" [] [bareDataOutput] (Some 7))) "e2e" None
  = TxThrown.
Proof.
  apply (proj2 (tx_lookup_throws_iff (lib := strictLibrary)
                  (fun _ : string => tt) 10
                  (fun _ => Some (mkTx "e2e" [] [bareDataOutput] (Some 7)))
                  "e2e" None)).
  split; [discriminate|]. eexists. split; reflexivity.
Defined.

Lemma tx_lookup_keeps_transaction_witness :
  exists e,
    txHandler (lib := templateLibrary) (fun _ : string => tt) 10
              (fun _ => Some exampleTx) "e2e" None = TxExplorer e
    /\ map output (explorerOutputs e) = outputs exampleTx
    /\ confirmations e = 4.
Proof.
  destruct (explorerTx (lib := templateLibrary) 10 exampleTx) as [e|] eqn:E;
    [|vm_compute in E; discriminate].
  exists e.
  assert (H : txHandler (lib := templateLibrary) (fun _ : string => tt) 10
                        (fun _ => Some exampleTx) "e2e" None = TxExplorer e).
  { unfold txHandler. rewrite E. reflexivity. }
  split; [exact H|].
  destruct (tx_lookup_keeps_transaction _ _ _ _ _ _ H) as (_ & Ht & _ & Ho & Hc).
  injection Ht as Ht. rewrite <- Ht in Ho, Hc. split; [exact Ho | exact Hc].
Defined.

(** ** What the overview lists and caches *)

Lemma listedFrom_weaken (c1 c2 : gmap string GeoIPResponse) (peer p : PeerInfo) :
  c1 ⊆ c2 -> listedFrom c1 peer p -> listedFrom c2 peer p.
Proof.
  intros Hsub (H1 & H2 & H3 & cached & H4 & H5).
  repeat split; try assumption. exists cached. split; [|exact H5].
  eapply lookup_weaken; [exact H4 | exact Hsub].
Qed.

Lemma overviewLoop_sound (geo : list string -> string -> FetchResult)
    (peerInfo : list PeerInfo) : forall (st : GeoState) (peers : list PeerInfo)
    (st' : GeoState) (listed : list PeerInfo),
  overviewLoop geo peerInfo st peers = (st', Some listed) ->
  GEOIP_CACHE st ⊆ GEOIP_CACHE st'
  /\ exists kept added,
       listed = peers ++ added
       /\ sublist kept peerInfo
       /\ Forall2 (listedFrom (GEOIP_CACHE st')) kept added.
Proof.
  induction peerInfo as [|peer rest IH]; intros st peers st' listed; simpl.
  - intros [= <- <-]. split; [reflexivity|]. exists [], [].
    rewrite app_nil_r. repeat split; constructor.
  - pose proof (peerAction_cases (GEOIP_CACHE st) peer) as Hcase.
    destruct (peerAction (GEOIP_CACHE st) peer) as [|p|ip].
    + intros H. destruct (IH _ _ _ _ H) as (Hsub & kept & added & E & Hk & Hf).
      split; [exact Hsub|]. exists kept, added.
      repeat split; [exact E | apply sublist_cons, Hk | exact Hf].
    + intros H. destruct (IH _ _ _ _ H) as (Hsub & kept & added & E & Hk & Hf).
      split; [exact Hsub|]. exists (peer :: kept), (p :: added).
      split; [rewrite E, <- app_assoc; reflexivity|].
      split; [apply sublist_skip, Hk|]. constructor; [|exact Hf].
      destruct Hcase as (Hpriv & cached & Hc & ->).
      apply (listedFrom_weaken (GEOIP_CACHE st)); [exact Hsub|].
      repeat split; try assumption. exists cached. split; [exact Hc | reflexivity].
    + destruct Hcase as (Hpriv & -> & Hnone).
      destruct (geo (lookups st) (stripPort (addr peer))) as [|json];
        [intros [= _ ?]; discriminate|].
      unfold onResponse. destruct (success json) eqn:Hs.
      * intros H. destruct (IH _ _ _ _ H) as (Hsub & kept & added & E & Hk & Hf).
        simpl in Hsub.
        assert (Hins : GEOIP_CACHE st
                       ⊆ <[stripPort (addr peer) := json]> (GEOIP_CACHE st))
          by (apply insert_subseteq, Hnone).
        split; [etransitivity; [exact Hins | exact Hsub]|].
        exists (peer :: kept),
               (mkPeerInfo (peerId peer) (stripPort (addr peer))
                           (Some (data json)) :: added).
        split; [rewrite E, <- app_assoc; reflexivity|].
        split; [apply sublist_skip, Hk|]. constructor; [|exact Hf].
        apply (listedFrom_weaken
                 (<[stripPort (addr peer) := json]> (GEOIP_CACHE st)));
          [exact Hsub|].
        repeat split; try assumption. exists json. simpl.
        split; [apply lookup_insert_eq | reflexivity].
      * rewrite app_nil_r. intros H.
        destruct (IH _ _ _ _ H) as (Hsub & kept & added & E & Hk & Hf).
        split; [exact Hsub|]. exists kept, added.
        repeat split; [exact E | apply sublist_cons, Hk | exact Hf].
Qed.

(** X13: when the [/overview] loop of a request that runs alone completes,
    the listing comes from a subsequence of the node's peers, in their
    order: each listed peer is one
    of them, not matched by the filter, with the port stripped from its
    address and as [geoip] the data of the entry the final cache holds for
    that address; and every entry the cache had before is still there,
    unchanged. *)
Theorem overview_listing_sound (geo : list string -> string -> FetchResult)
    (peerInfo : list PeerInfo) (st st' : GeoState) (listed : list PeerInfo) :
  overview geo peerInfo st = (st', Some listed) ->
  GEOIP_CACHE st ⊆ GEOIP_CACHE st'
  /\ exists kept, sublist kept peerInfo
                  /\ Forall2 (listedFrom (GEOIP_CACHE st')) kept listed.
Proof.
  unfold overview. intros H.
  destruct (overviewLoop_sound _ _ _ _ _ _ H) as (Hsub & kept & added & E & Hk & Hf).
  split; [exact Hsub|]. exists kept. simpl in E. subst listed.
  split; assumption.
Qed.

Lemma overview_listing_sound_witness :
  (overview geoAlways [lanPeer; publicPeer] coldState).2
  = Some [mkPeerInfo 1 "8.8.8.8" (Some (mkGeoIPData "Nowhere" "None"))]
  /\ exists kept,
       sublist kept [lanPeer; publicPeer]
       /\ Forall2 (listedFrom
                     (GEOIP_CACHE
                        (overview geoAlways [lanPeer; publicPeer] coldState).1))
                  kept
                  [mkPeerInfo 1 "8.8.8.8" (Some (mkGeoIPData "Nowhere" "None"))].
Proof.
  assert (H2 : (overview geoAlways [lanPeer; publicPeer] coldState).2
               = Some [mkPeerInfo 1 "8.8.8.8"
                                  (Some (mkGeoIPData "Nowhere" "None"))])
    by (vm_compute; reflexivity).
  split; [exact H2|].
  assert (H : overview geoAlways [lanPeer; publicPeer] coldState
              = ((overview geoAlways [lanPeer; publicPeer] coldState).1,
                 Some [mkPeerInfo 1 "8.8.8.8"
                                  (Some (mkGeoIPData "Nowhere" "None"))])).
  { rewrite <- H2. apply surjective_pairing. }
  exact (proj2 (overview_listing_sound geoAlways [lanPeer; publicPeer] coldState
                  _ _ H)).
Defined.

(** *** Invariants of the interleaved requests *)

Lemma onResponse_successful cache peer ip json :
  allSuccessful cache -> allSuccessful (onResponse cache peer ip json).1.
Proof.
  unfold onResponse, allSuccessful. intros H.
  destruct (success json) eqn:Hs; simpl; [|exact H].
  apply map_Forall_insert_2; assumption.
Qed.

Lemma step_successful (P : Process) (e : Event) (Q : Process) :
  step P e Q -> allSuccessful (cacheOf P) -> allSuccessful (cacheOf Q).
Proof.
  intros Hstep H. inversion Hstep; subst; simpl in *; try exact H.
  apply onResponse_successful, H.
Qed.

Lemma step_cache_grows (P : Process) (e : Event) (Q : Process) :
  step P e Q -> dom (cacheOf P) ⊆ dom (cacheOf Q).
Proof.
  intros Hstep. inversion Hstep; subst; simpl; try reflexivity.
  unfold onResponse. destruct (success json); simpl; [|reflexivity].
  rewrite dom_insert. set_solver.
Qed.

(** X14: along every interleaving of requests, a cache that holds only
    successful answers goes on holding only successful answers, and no
    address leaves it. *)
Theorem cache_holds_successes (P Q : Process) (tr : list Event) :
  allSuccessful (cacheOf P) -> run P tr Q ->
  allSuccessful (cacheOf Q) /\ dom (cacheOf P) ⊆ dom (cacheOf Q).
Proof.
  intros H Hrun. induction Hrun as [P|P e Q tr R Hstep Hrun IH].
  - split; [exact H | reflexivity].
  - destruct (IH (step_successful _ _ _ Hstep H)) as [H1 H2].
    split; [exact H1|]. etransitivity; [exact (step_cache_grows _ _ _ Hstep)|].
    exact H2.
Qed.

Lemma cache_holds_successes_witness :
  allSuccessful (cacheOf (mkProcess {[ "8.8.8.8"%string := googleDns ]}
                                    [Running [otherPeer] []]))
  /\ allSuccessful
       (cacheOf (mkProcess
                   (<["1.1.1.1"%string :=
                        mkGeoIPResponse true "success" "1.1.1.1"
                                        (mkGeoIPData "Australia" "Sydney")]>
                      {[ "8.8.8.8"%string := googleDns ]})
                   [Running [] [mkPeerInfo 2 "1.1.1.1"
                                  (Some (mkGeoIPData "Australia" "Sydney"))]])).
Proof.
  assert (H1 : allSuccessful
                 (cacheOf (mkProcess {[ "8.8.8.8"%string := googleDns ]}
                                     [Running [otherPeer] []]))).
  { apply map_Forall_singleton. reflexivity. }
  split; [exact H1|].
  assert (H2 : run (mkProcess {[ "8.8.8.8"%string := googleDns ]}
                      [Running [otherPeer] []])
                   [Fetch "1.1.1.1"; Silent]
                   (mkProcess
                      (<["1.1.1.1"%string :=
                           mkGeoIPResponse true "success" "1.1.1.1"
                                           (mkGeoIPData "Australia" "Sydney")]>
                         {[ "8.8.8.8"%string := googleDns ]})
                      [Running [] [mkPeerInfo 2 "1.1.1.1"
                                     (Some (mkGeoIPData "Australia" "Sydney"))]])).
  { apply (run_step _ (Fetch "1.1.1.1")
             (mkProcess {[ "8.8.8.8"%string := googleDns ]}
                        [Awaiting otherPeer "1.1.1.1" [] []])).
    - exact (step_lookup {[ "8.8.8.8"%string := googleDns ]}
               [Running [otherPeer] []] 0%nat otherPeer [] [] "1.1.1.1"
               eq_refl eq_refl).
    - apply run_one.
      exact (step_json {[ "8.8.8.8"%string := googleDns ]}
               [Awaiting otherPeer "1.1.1.1" [] []] 0%nat otherPeer "1.1.1.1"
               [] [] (mkGeoIPResponse true "success" "1.1.1.1"
                                      (mkGeoIPData "Australia" "Sydney"))
               eq_refl). }
  exact (proj1 (cache_holds_successes _ _ _ H1 H2)).
Defined.

(** ** Address balance and configuration *)

Lemma fold_left_add_sumZ (l : list Z) (acc : Z) :
  fold_left Z.add l acc = acc + sumZ l.
Proof.
  revert acc. induction l as [|z l IH]; intros acc; simpl.
  - unfold sumZ. simpl. lia.
  - rewrite IH, sumZ_cons. lia.
Qed.

Lemma sumZ_Permutation (l l' : list Z) : l ≡ₚ l' -> sumZ l = sumZ l'.
Proof.
  induction 1 as [|x l l' _ IH|x y l|l l' l'' _ IH1 _ IH2];
    rewrite ?sumZ_cons; try lia; try reflexivity.
Qed.

(** X15: with [includeBalance=1] the balance is the decimal text of the exact
    sum of the UTXO values of the first script of the indexer's answer,
    whatever their order and whatever follows the first script; there is no
    balance for any other value of the flag, nor for an empty answer. *)
Theorem balance_of_first_group (flag : option string) (utxos utxos' : list Z)
    (more : list (list Z)) :
  balanceOf (Some "1"%string) (utxos :: more)
  = Some (BigInt_toString (sumZ utxos))
  /\ (utxos ≡ₚ utxos' ->
      balanceOf (Some "1"%string) (utxos' :: more)
      = balanceOf (Some "1"%string) (utxos :: more))
  /\ (flag <> Some "1"%string -> balanceOf flag (utxos :: more) = None)
  /\ balanceOf flag [] = None.
Proof.
  assert (E : forall l, balanceOf (Some "1"%string) (l :: more)
                        = Some (BigInt_toString (sumZ l))).
  { intros l. unfold balanceOf. simpl. rewrite fold_left_add_sumZ. reflexivity. }
  split; [apply E|]. split; [|split].
  - intros Hp. rewrite !E, (sumZ_Permutation _ _ Hp). reflexivity.
  - intros Hf. unfold balanceOf. destruct flag as [f|]; [|reflexivity].
    destruct (String.eqb_spec f "1") as [->|_]; [contradiction | reflexivity].
  - unfold balanceOf. destruct flag as [f|]; [|reflexivity].
    destruct (String.eqb f "1"); reflexivity.
Qed.

Lemma orString_falsy (v : option string) (d : string) :
  v = None \/ v = Some ""%string -> orString v d = d.
Proof. intros [->| ->]; reflexivity. Qed.

(** X16: when every variable is missing or empty, and in particular without
    an environment file, the configuration is the default one. *)
Theorem config_defaults (env : option DotenvConfigOutput) :
  (forall key, envVar env key = None \/ envVar env key = Some ""%string) ->
  parseEnvironment env = defaultConfig.
Proof.
  intros H. unfold parseEnvironment.
  rewrite !(orString_falsy _ _ (H _)). vm_compute. reflexivity.
Qed.

Lemma config_defaults_witness :
  parseEnvironment None = defaultConfig
  /\ parseEnvironment (Some (mkDotenvConfigOutput None)) = defaultConfig.
Proof.
  split.
  - apply (config_defaults None). intros key. left. reflexivity.
  - apply (config_defaults (Some (mkDotenvConfigOutput None))). intros key.
    left. reflexivity.
Defined.

Lemma pretty_Z_nonempty (z : Z) : pretty z <> ""%string.
Proof.
  intros E. pose proof (parseInt_of_decimal z) as H. rewrite E in H.
  discriminate H.
Qed.

Lemma orString_set (s d : string) : s <> ""%string -> orString (Some s) d = s.
Proof.
  intros H. unfold orString. destruct (String.eqb_spec s ""); [contradiction|].
  reflexivity.
Qed.

(** X17: a listen port given as the decimal text of an integer is taken as
    that integer, with no check of its range. *)
Theorem config_port_unchecked (env : option DotenvConfigOutput) (z : Z) :
  envVar env "API_LISTEN_PORT" = Some (pretty z) ->
  - 2 ^ 53 <= z <= 2 ^ 53 ->
  listenPort (api (parseEnvironment env)) = Num z.
Proof.
  intros H _. unfold parseEnvironment. simpl.
  rewrite H, (orString_set _ _ (pretty_Z_nonempty z)). apply parseInt_of_decimal.
Qed.

Lemma config_port_unchecked_witness :
  listenPort (api (parseEnvironment (dotenvOf [("API_LISTEN_PORT", "70000")])))
  = Num 70000
  /\ listenPort (api (parseEnvironment (dotenvOf [("API_LISTEN_PORT", "-1")])))
     = Num (-1).
Proof.
  split.
  - apply (config_port_unchecked (dotenvOf [("API_LISTEN_PORT", "70000")]) 70000);
      [reflexivity | lia].
  - apply (config_port_unchecked (dotenvOf [("API_LISTEN_PORT", "-1")]) (-1));
      [reflexivity | lia].
Defined.

Lemma parseInt_no_number (c : ascii) (rest : string) :
  isStrWhiteSpace c = false -> isDigit c = false ->
  c <> "+"%char -> c <> "-"%char ->
  parseInt (String c rest) = NaN.
Proof.
  intros Hw Hd Hp Hm. unfold parseInt. simpl trimStart. rewrite Hw.
  assert (Es : splitSign (String c rest) = (1, String c rest)).
  { unfold splitSign.
    destruct (Ascii.eqb_spec c "-"); [contradiction|].
    destruct (Ascii.eqb_spec c "+"); [contradiction|].
    destruct c as [[] [] [] [] [] [] [] []]; try reflexivity; contradiction. }
  rewrite Es.
  assert (Er : splitRadix (String c rest) = (10, String c rest)).
  { unfold splitRadix.
    destruct c as [[] [] [] [] [] [] [] []]; try reflexivity; discriminate Hd. }
  unfold magnitude. rewrite Er.
  assert (Ed : digitValue 10 c = None).
  { unfold digitValue. rewrite Hd.
    destruct c as [[] [] [] [] [] [] [] []]; reflexivity. }
  rewrite Ed. reflexivity.
Qed.

(** X18: a listen port whose text begins with a letter is [NaN]: the default
    port replaces a missing or empty text only. *)
Theorem config_port_not_a_number (env : option DotenvConfigOutput)
    (c : ascii) (rest : string) :
  envVar env "API_LISTEN_PORT" = Some (String c rest) ->
  inRange "a" "z" c || inRange "A" "Z" c = true ->
  listenPort (api (parseEnvironment env)) = NaN.
Proof.
  intros H Hc. unfold parseEnvironment. simpl.
  rewrite H, orString_set by discriminate.
  apply parseInt_no_number;
    destruct c as [[] [] [] [] [] [] [] []]; try discriminate Hc;
    first [reflexivity | discriminate].
Qed.

Lemma config_port_not_a_number_witness :
  listenPort (api (parseEnvironment (dotenvOf [("API_LISTEN_PORT", "http")])))
  = NaN.
Proof.
  apply (config_port_not_a_number (dotenvOf [("API_LISTEN_PORT", "http")])
           "h" "ttp"); reflexivity.
Defined.
